(** * bubbles: the pointer-trail sketch (src/components/gui.ts)

    A shallow embedding of the [Sketch] class: the frame clock, the mouse
    tracker, the pointer-trail buffer, the uniform feed and the resize
    handler, over an explicit JavaScript object store.

    - JavaScript numbers are IEEE binary64 ([float]), round to nearest even.
      The code is embedded once, over the interface [Number] of the literals
      and operations it uses; what depends only on the data flow is proved
      for any carrier, and what depends on the arithmetic is proved for
      binary64, from its specification ([SpecFloat], [FloatAxioms]).
    - [THREE.Vector2] objects and the trail array live in a store ([Heap]);
      fields of the sketch and of the uniforms hold references, so that the
      sharing of the array between [this.pointerTrail] and
      [uniforms.uPointerTrail.value] is the sharing of one location.
    - A method is a function [Sketch -> option Sketch]; [None] is a thrown
      [TypeError] (a property read on [undefined]). *)

From Stdlib Require Import ZArith QArith Qpower Qabs Lia Floats.
From stdpp Require Import base option list gmap numbers.

#[local] Set Warnings "-inexact-float".
#[local] Open Scope nat_scope.

(** ** Numbers *)

Declare Scope num_scope.
Delimit Scope num_scope with num.

Class Number (num : Type) : Type := {
  num_0 : num;                      (* the literal 0 *)
  num_1 : num;                      (* the literal 1 *)
  num_2 : num;                      (* the literal 2 *)
  num_0_01 : num;                   (* the literal 0.01 *)
  num_add : num -> num -> num;
  num_sub : num -> num -> num;
  num_mul : num -> num -> num;
  num_div : num -> num -> num;
  num_neg : num -> num
}.

Infix "+" := num_add : num_scope.
Infix "-" := num_sub : num_scope.
Infix "*" := num_mul : num_scope.
Infix "/" := num_div : num_scope.
Notation "- a" := (num_neg a) : num_scope.

(** IEEE 754 binary64, round to nearest even: the JavaScript number type. *)
#[export] Instance float_Number : Number float := {|
  num_0 := 0%float;
  num_1 := 1%float;
  num_2 := 2%float;
  num_0_01 := 0.01%float;
  num_add := PrimFloat.add;
  num_sub := PrimFloat.sub;
  num_mul := PrimFloat.mul;
  num_div := PrimFloat.div;
  num_neg := PrimFloat.opp
|}.

(** ** Plain records of the host and of three.js *)

(** [THREE.Vector2]: the two fields the sketch reads and writes. *)
Module Vector2.
Record t (num : Type) : Type := make { x : num; y : num }.
Arguments make {num} _ _.
Arguments x {num} _.
Arguments y {num} _.
End Vector2.

(** The module-level constant [device]. *)
Module Device.
Record t (num : Type) : Type :=
  make { width : num; height : num; pixelRatio : num }.
Arguments make {num} _ _ _.
Arguments width {num} _.
Arguments height {num} _.
Arguments pixelRatio {num} _.
End Device.

(** The result of [canvas.getBoundingClientRect()]. *)
Module DOMRect.
Record t (num : Type) : Type :=
  make { left : num; top : num; width : num; height : num }.
Arguments make {num} _ _ _ _.
Arguments left {num} _.
Arguments top {num} _.
Arguments width {num} _.
Arguments height {num} _.
End DOMRect.

(** References into the object store. *)
Definition loc : Type := nat.

(** The [uniforms] object built by [addGeometry]; three.js keeps the object
  it is given, so both materials and the sketch see this one record.
  [time] holds a number, the two others hold references. *)
Module Uniforms.
Record t (num : Type) : Type :=
  make { time : num; uResolution : loc; uPointerTrail : loc }.
Arguments make {num} _ _ _.
Arguments time {num} _.
Arguments uResolution {num} _.
Arguments uPointerTrail {num} _.
End Uniforms.

(** The events the sketch listens to. *)
Inductive EventType : Type := resize_event | mousemove_event.

#[export] Instance EventType_eq_dec : EqDecision EventType.
Proof. solve_decision. Defined.

Section SketchModel.
Context {num : Type} `{Number num}.

#[local] Open Scope num_scope.

(** *** The object store *)

Inductive object : Type :=
| ObjVector2 (v : Vector2.t num)
| ObjArray (elems : list loc).

Record Heap : Type := { cells : gmap loc object; next : loc }.

Definition empty_heap : Heap := {| cells := ∅; next := 0%nat |}.

(** [new C(...)]: a fresh location. *)
Definition alloc (o : object) (h : Heap) : loc * Heap :=
  (next h, {| cells := <[next h := o]> (cells h); next := S (next h) |}).

Definition store (l : loc) (o : object) (h : Heap) : Heap :=
  {| cells := <[l := o]> (cells h); next := next h |}.

Definition getVector2 (l : loc) (h : Heap) : option (Vector2.t num) :=
  match cells h !! l with
  | Some (ObjVector2 v) => Some v
  | _ => None
  end.

Definition getArray (l : loc) (h : Heap) : option (list loc) :=
  match cells h !! l with
  | Some (ObjArray elems) => Some elems
  | _ => None
  end.

(** [a[i]] followed by a property access: [undefined] throws. *)
Definition index (a : loc) (i : nat) (h : Heap) : option loc :=
  elems ← getArray a h; elems !! i.

(** [dst.copy(src)]: [this.x = v.x; this.y = v.y]. *)
Definition Vector2_copy (dst src : loc) (h : Heap) : option Heap :=
  v ← getVector2 src h;
  _ ← getVector2 dst h;
  Some (store dst (ObjVector2 v) h).

Definition Vector2_set_x (l : loc) (a : num) (h : Heap) : option Heap :=
  v ← getVector2 l h;
  Some (store l (ObjVector2 (Vector2.make a (Vector2.y v))) h).

Definition Vector2_set_y (l : loc) (a : num) (h : Heap) : option Heap :=
  v ← getVector2 l h;
  Some (store l (ObjVector2 (Vector2.make (Vector2.x v) a)) h).

(** [Array.from({length: n}, () => new THREE.Vector2(0, 0))]: the factory
    runs once per index, in index order, so every slot is its own object. *)
Fixpoint alloc_vectors (n : nat) (h : Heap) : list loc * Heap :=
  match n with
  | O => ([], h)
  | S n' =>
      let '(l, h1) := alloc (ObjVector2 (Vector2.make num_0 num_0)) h in
      let '(ls, h2) := alloc_vectors n' h1 in
      (l :: ls, h2)
  end.

Definition Array_from (n : nat) (h : Heap) : loc * Heap :=
  let '(ls, h1) := alloc_vectors n h in alloc (ObjArray ls) h1.

(** The values held by an array of vectors, slot by slot. *)
Definition readArray (a : loc) (h : Heap) : option (list (Vector2.t num)) :=
  elems ← getArray a h; mapM (λ l, getVector2 l h) elems.

(** *** The sketch *)

(** The calls into the host and into three.js that [render] and [onResize]
    make, and the statements of [render], in execution order.  The render
    call carries what the shader program reads at that moment: the [time]
    uniform, the [uResolution] vector and the vectors of [uPointerTrail]. *)
Inductive Effect : Type :=
| StatsBegin
| TimeAdvanced (t : num)
| PointerTrailUpdated
| UniformTimeWritten (t : num)
| ControlsUpdate
| RendererRender (t : num) (resolution : Vector2.t num)
    (trail : list (Vector2.t num))
| StatsEnd
| RequestAnimationFrame
| CameraUpdateProjectionMatrix
| RendererSetSize (w h : num)
| AddEventListener (ty : EventType).

Record Sketch : Type := {
  time : num;
  trailLength : nat;
  pointerTrail : loc;
  mousePosition : loc;
  camera_aspect : num;
  renderer_size : num * num;
  stats : bool;                             (* [this.stats] is defined *)
  planeMesh : option (Uniforms.t num);      (* [planeMesh.material.uniforms] *)
  device : Device.t num;
  heap : Heap;
  listeners : list EventType;
  frames_requested : nat;
  trace : list Effect
}.

Definition set_time (t : num) (s : Sketch) : Sketch :=
  {| time := t; trailLength := trailLength s; pointerTrail := pointerTrail s;
     mousePosition := mousePosition s; camera_aspect := camera_aspect s;
     renderer_size := renderer_size s; stats := stats s;
     planeMesh := planeMesh s; device := device s; heap := heap s;
     listeners := listeners s; frames_requested := frames_requested s;
     trace := trace s |}.

Definition set_camera_aspect (a : num) (s : Sketch) : Sketch :=
  {| time := time s; trailLength := trailLength s;
     pointerTrail := pointerTrail s; mousePosition := mousePosition s;
     camera_aspect := a; renderer_size := renderer_size s; stats := stats s;
     planeMesh := planeMesh s; device := device s; heap := heap s;
     listeners := listeners s; frames_requested := frames_requested s;
     trace := trace s |}.

Definition set_renderer_size (wh : num * num) (s : Sketch) : Sketch :=
  {| time := time s; trailLength := trailLength s;
     pointerTrail := pointerTrail s; mousePosition := mousePosition s;
     camera_aspect := camera_aspect s; renderer_size := wh; stats := stats s;
     planeMesh := planeMesh s; device := device s; heap := heap s;
     listeners := listeners s; frames_requested := frames_requested s;
     trace := trace s |}.

Definition set_stats (b : bool) (s : Sketch) : Sketch :=
  {| time := time s; trailLength := trailLength s;
     pointerTrail := pointerTrail s; mousePosition := mousePosition s;
     camera_aspect := camera_aspect s; renderer_size := renderer_size s;
     stats := b; planeMesh := planeMesh s; device := device s;
     heap := heap s; listeners := listeners s;
     frames_requested := frames_requested s; trace := trace s |}.

Definition set_planeMesh (u : option (Uniforms.t num)) (s : Sketch) : Sketch :=
  {| time := time s; trailLength := trailLength s;
     pointerTrail := pointerTrail s; mousePosition := mousePosition s;
     camera_aspect := camera_aspect s; renderer_size := renderer_size s;
     stats := stats s; planeMesh := u; device := device s; heap := heap s;
     listeners := listeners s; frames_requested := frames_requested s;
     trace := trace s |}.

Definition set_device (d : Device.t num) (s : Sketch) : Sketch :=
  {| time := time s; trailLength := trailLength s;
     pointerTrail := pointerTrail s; mousePosition := mousePosition s;
     camera_aspect := camera_aspect s; renderer_size := renderer_size s;
     stats := stats s; planeMesh := planeMesh s; device := d; heap := heap s;
     listeners := listeners s; frames_requested := frames_requested s;
     trace := trace s |}.

Definition set_heap (h : Heap) (s : Sketch) : Sketch :=
  {| time := time s; trailLength := trailLength s;
     pointerTrail := pointerTrail s; mousePosition := mousePosition s;
     camera_aspect := camera_aspect s; renderer_size := renderer_size s;
     stats := stats s; planeMesh := planeMesh s; device := device s;
     heap := h; listeners := listeners s;
     frames_requested := frames_requested s; trace := trace s |}.

Definition set_listeners (l : list EventType) (s : Sketch) : Sketch :=
  {| time := time s; trailLength := trailLength s;
     pointerTrail := pointerTrail s; mousePosition := mousePosition s;
     camera_aspect := camera_aspect s; renderer_size := renderer_size s;
     stats := stats s; planeMesh := planeMesh s; device := device s;
     heap := heap s; listeners := l;
     frames_requested := frames_requested s; trace := trace s |}.

Definition set_frames_requested (n : nat) (s : Sketch) : Sketch :=
  {| time := time s; trailLength := trailLength s;
     pointerTrail := pointerTrail s; mousePosition := mousePosition s;
     camera_aspect := camera_aspect s; renderer_size := renderer_size s;
     stats := stats s; planeMesh := planeMesh s; device := device s;
     heap := heap s; listeners := listeners s; frames_requested := n;
     trace := trace s |}.

(** One more entry at the end of the trace. *)
Definition emit (e : Effect) (s : Sketch) : Sketch :=
  {| time := time s; trailLength := trailLength s;
     pointerTrail := pointerTrail s; mousePosition := mousePosition s;
     camera_aspect := camera_aspect s; renderer_size := renderer_size s;
     stats := stats s; planeMesh := planeMesh s; device := device s;
     heap := heap s; listeners := listeners s;
     frames_requested := frames_requested s; trace := trace s ++ [e] |}.

(** [this.stats?.begin()] and [this.stats?.end()]. *)
Definition stats_call (e : Effect) (s : Sketch) : Sketch :=
  if stats s then emit e s else s.

(** The body of the [for] loop of [updatePointerTrail], from [i] down to 1:
    [for (let i = trailLength - 1; i > 0; i--)
       pointerTrail[i].copy(pointerTrail[i - 1])]. *)
Fixpoint shift_from (a : loc) (i : nat) (h : Heap) : option Heap :=
  match i with
  | O => Some h
  | S j =>
      dst ← index a (S j) h;
      src ← index a j h;
      h' ← Vector2_copy dst src h;
      shift_from a j h'
  end.

Definition updatePointerTrail (s : Sketch) : option Sketch :=
  h1 ← shift_from (pointerTrail s) (trailLength s - 1)%nat (heap s);
  dst ← index (pointerTrail s) 0 h1;
  h2 ← Vector2_copy dst (mousePosition s) h1;
  Some (set_heap h2 s).

(** The [mousemove] listener installed by [createMouseTracker]; the event's
    client coordinates and the canvas rectangle come from the host. *)
Definition onMouseMove (clientX clientY : num) (rect : DOMRect.t num)
    (s : Sketch) : option Sketch :=
  h1 ← Vector2_set_x (mousePosition s)
         (((clientX - DOMRect.left rect) / DOMRect.width rect) * num_2 - num_1)
         (heap s);
  h2 ← Vector2_set_y (mousePosition s)
         (- ((clientY - DOMRect.top rect) / DOMRect.height rect) * num_2 + num_1)
         h1;
  Some (set_heap h2 s).

Definition createMouseTracker (s : Sketch) : Sketch :=
  set_listeners (listeners s ++ [mousemove_event])
    (emit (AddEventListener mousemove_event) s).

(** [renderer.render(scene, camera)]: the plane's shader program is fed the
    uniforms as they are when the call is made. *)
Definition renderer_render (s : Sketch) : option Sketch :=
  u ← planeMesh s;
  resolution ← getVector2 (Uniforms.uResolution u) (heap s);
  trail ← readArray (Uniforms.uPointerTrail u) (heap s);
  Some (emit (RendererRender (Uniforms.time u) resolution trail) s).

Definition render (s : Sketch) : option Sketch :=
  let s := stats_call StatsBegin s in
  let s := emit (TimeAdvanced (time s + num_0_01)) (set_time (time s + num_0_01) s) in
  s ← updatePointerTrail s;
  let s := emit PointerTrailUpdated s in
  u ← planeMesh s;
  let s :=
    emit (UniformTimeWritten (time s))
      (set_planeMesh
         (Some (Uniforms.make (time s) (Uniforms.uResolution u)
                  (Uniforms.uPointerTrail u))) s) in
  let s := emit ControlsUpdate s in
  s ← renderer_render s;
  let s := stats_call StatsEnd s in
  Some (set_frames_requested (S (frames_requested s))
          (emit RequestAnimationFrame s)).

(** [addGeometry], as far as the uniforms go (the meshes, lights and
    settings-panel bindings read none of the state modelled here). *)
Definition addGeometry (s : Sketch) : Sketch :=
  let '(res, h1) :=
    alloc (ObjVector2
             (Vector2.make (Device.width (device s)) (Device.height (device s))))
          (heap s) in
  set_planeMesh (Some (Uniforms.make num_0 res (pointerTrail s)))
    (set_heap h1 s).

Definition resize (s : Sketch) : Sketch :=
  set_listeners (listeners s ++ [resize_event])
    (emit (AddEventListener resize_event) s).

(** [onResize]; [window.innerWidth] and [window.innerHeight] come from the
    host. *)
Definition onResize (innerWidth innerHeight : num) (s : Sketch) : Sketch :=
  let s :=
    set_device
      (Device.make innerWidth innerHeight (Device.pixelRatio (device s))) s in
  let s :=
    set_camera_aspect
      (Device.width (device s) / Device.height (device s)) s in
  let s := emit CameraUpdateProjectionMatrix s in
  emit (RendererSetSize (Device.width (device s)) (Device.height (device s)))
    (set_renderer_size
       (Device.width (device s), Device.height (device s)) s).

Definition initStats (s : Sketch) : Sketch := set_stats true s.

Definition init (s : Sketch) : option Sketch :=
  let s := addGeometry s in
  let s := resize s in
  s ← render s;
  Some (createMouseTracker s).

(** The field initialisations of the constructor, up to the calls of
    [initStats] and [init]. *)
Definition constructor_fields (dev : Device.t num) : Sketch :=
  let '(mouse, h1) :=
    alloc (ObjVector2 (Vector2.make num_0 num_0)) empty_heap in
  let '(trail, h2) := Array_from 15 h1 in
  {| time := num_0;
     trailLength := 15;
     pointerTrail := trail;
     mousePosition := mouse;
     camera_aspect := Device.width dev / Device.height dev;
     renderer_size := (Device.width dev, Device.height dev);
     stats := false;
     planeMesh := None;
     device := dev;
     heap := h2;
     listeners := [];
     frames_requested := 0;
     trace := [RendererSetSize (Device.width dev) (Device.height dev)] |}.

Definition constructor (dev : Device.t num) : option Sketch :=
  init (initStats (constructor_fields dev)).

(** *** The host's event loop *)

Inductive Event : Type :=
| AnimationFrame (timestamp : num)
| MouseMove (clientX clientY : num) (rect : DOMRect.t num)
| WindowResize (innerWidth innerHeight : num).

(** One event: the listener runs if it is installed; an animation frame runs
    one requested callback, which is [render] bound to the sketch: the
    timestamp the host passes is not a parameter of [render]. *)
Definition dispatch (e : Event) (s : Sketch) : option Sketch :=
  match e with
  | AnimationFrame _ =>
      match frames_requested s with
      | O => Some s
      | S n => render (set_frames_requested n s)
      end
  | MouseMove clientX clientY rect =>
      if decide (mousemove_event ∈ listeners s)
      then onMouseMove clientX clientY rect s
      else Some s
  | WindowResize innerWidth innerHeight =>
      if decide (resize_event ∈ listeners s)
      then Some (onResize innerWidth innerHeight s)
      else Some s
  end.

Fixpoint run (es : list Event) (s : Sketch) : option Sketch :=
  match es with
  | [] => Some s
  | e :: es' => s' ← dispatch e s; run es' s'
  end.

(** [k] calls of a method in a row. *)
Fixpoint repeat_call (f : Sketch -> option Sketch) (k : nat) (s : Sketch)
    : option Sketch :=
  match k with
  | O => Some s
  | S k' => s' ← f s; repeat_call f k' s'
  end.

(** What the sketch's trail buffer and current pointer hold. *)
Definition trail_values (s : Sketch) : option (list (Vector2.t num)) :=
  readArray (pointerTrail s) (heap s).

Definition pointer_value (s : Sketch) : option (Vector2.t num) :=
  getVector2 (mousePosition s) (heap s).


(** *** The shape of the store *)

(** What the constructor sets up and every method keeps: the trail is an
    array of [trailLength] vectors, at least one, each slot an object of its
    own, and none of them the current pointer's vector. *)
Definition wf (s : Sketch) : Prop :=
  match getArray (pointerTrail s) (heap s) with
  | Some elems =>
      length elems = trailLength s /\
      (0 < trailLength s)%nat /\
      NoDup (mousePosition s :: elems) /\
      Forall (fun l => is_Some (getVector2 l (heap s)))
        (mousePosition s :: elems)
  | None => False
  end.

(** After [addGeometry]: the plane's [uPointerTrail] uniform holds the
    sketch's own array, and [uResolution] holds a vector that is neither a
    trail slot nor the current pointer. *)
Definition feed_linked (s : Sketch) : Prop :=
  match planeMesh s, getArray (pointerTrail s) (heap s) with
  | Some u, Some elems =>
      Uniforms.uPointerTrail u = pointerTrail s /\
      (Uniforms.uResolution u ∉ mousePosition s :: elems) /\
      is_Some (getVector2 (Uniforms.uResolution u) (heap s))
  | _, _ => False
  end.

(** The value of the [uResolution] uniform. *)
Definition resolution_value (s : Sketch) : option (Vector2.t num) :=
  u ← planeMesh s; getVector2 (Uniforms.uResolution u) (heap s).

(** The running sketch: both listeners installed, one frame requested. *)
Definition running (s : Sketch) : Prop :=
  wf s /\ feed_linked s /\
  frames_requested s = 1%nat /\
  resize_event ∈ listeners s /\ mousemove_event ∈ listeners s.

Definition is_mousemove (e : Event) : bool :=
  match e with MouseMove _ _ _ => true | _ => false end.

Definition is_frame (e : Event) : bool :=
  match e with AnimationFrame _ => true | _ => false end.

Fixpoint count_frames (es : list Event) : nat :=
  match es with
  | [] => 0
  | e :: es' => (if is_frame e then 1 else 0) + count_frames es'
  end%nat.

Definition no_mousemove (es : list Event) : bool :=
  forallb (fun e => negb (is_mousemove e)) es.

(** [k] times [t += 0.01]. *)
Fixpoint advance_time (k : nat) (t : num) : num :=
  match k with
  | O => t
  | S k' => advance_time k' (t + num_0_01)
  end.

(** The origin, as [new THREE.Vector2(0, 0)] builds it. *)
Definition origin : Vector2.t num := Vector2.make num_0 num_0.


(** The trace of one call of [render] that saw time [t], resolution [r] and
    trail [vs] at its render call. *)
Definition tick_trace (with_stats : bool) (t : num) (r : Vector2.t num)
    (vs : list (Vector2.t num)) : list Effect :=
  (if with_stats then [StatsBegin] else []) ++
  [TimeAdvanced t; PointerTrailUpdated; UniformTimeWritten t; ControlsUpdate;
   RendererRender t r vs] ++
  (if with_stats then [StatsEnd] else []) ++
  [RequestAnimationFrame].

(** The six steps of a tick named by the design, as opposed to the
    bracketing calls of the statistics panel. *)
Definition is_tick_step (e : Effect) : bool :=
  match e with
  | TimeAdvanced _ | PointerTrailUpdated | UniformTimeWritten _
  | ControlsUpdate | RendererRender _ _ _ | RequestAnimationFrame => true
  | _ => false
  end.

Definition is_render_call (e : Effect) : bool :=
  match e with RendererRender _ _ _ => true | _ => false end.

(** *** Readings of a run of events *)

(** The vector the [mousemove] listener writes into [mousePosition]. *)
Definition normalize (clientX clientY : num) (rect : DOMRect.t num)
    : Vector2.t num :=
  Vector2.make
    (((clientX - DOMRect.left rect) / DOMRect.width rect) * num_2 - num_1)
    (- ((clientY - DOMRect.top rect) / DOMRect.height rect) * num_2 + num_1).

(** The store after the loop and the final copy of [updatePointerTrail], for
    the array [a], the bound [n] and the current pointer [m]. *)
Definition advance_store (a : loc) (n : nat) (m : loc) (h : Heap)
    : option Heap :=
  h1 ← shift_from a (n - 1)%nat h;
  dst ← index a 0 h1;
  Vector2_copy dst m h1.

(** The current pointer after the events [es], from [p]: the last
    [mousemove] wins. *)
Fixpoint pointer_after (es : list Event) (p : Vector2.t num)
    : Vector2.t num :=
  match es with
  | [] => p
  | MouseMove clientX clientY rect :: es' =>
      pointer_after es' (normalize clientX clientY rect)
  | _ :: es' => pointer_after es' p
  end.

(** The current pointer as each frame of [es] found it, newest first. *)
Fixpoint frame_samples (es : list Event) (p : Vector2.t num)
    : list (Vector2.t num) :=
  match es with
  | [] => []
  | AnimationFrame _ :: es' => frame_samples es' p ++ [p]
  | MouseMove clientX clientY rect :: es' =>
      frame_samples es' (normalize clientX clientY rect)
  | WindowResize _ _ :: es' => frame_samples es' p
  end.



(** The window size after the events [es], from [wh]: the last resize
    wins. *)
Fixpoint last_size (es : list Event) (wh : num * num) : num * num :=
  match es with
  | [] => wh
  | WindowResize innerWidth innerHeight :: es' =>
      last_size es' (innerWidth, innerHeight)
  | _ :: es' => last_size es' wh
  end.

(** The render calls of a trace, in order, with what each one drew. *)
Definition render_calls (tr : list Effect) : list Effect :=
  List.filter is_render_call tr.


(** The camera and the renderer agree with the [device] record. *)
Definition device_synced (s : Sketch) : Prop :=
  camera_aspect s = Device.width (device s) / Device.height (device s) /\
  renderer_size s = (Device.width (device s), Device.height (device s)).

End SketchModel.

Arguments object : clear implicits.
Arguments Heap : clear implicits.
Arguments Effect : clear implicits.
Arguments Sketch : clear implicits.
Arguments Event : clear implicits.

#[export] Instance wf_dec {num : Type} `{Number num} (s : Sketch num) :
  Decision (wf s).
Proof.
  unfold wf. destruct (getArray (pointerTrail s) (heap s)); apply _.
Defined.

#[export] Instance feed_linked_dec {num : Type} `{Number num}
  (s : Sketch num) : Decision (feed_linked s).
Proof.
  unfold feed_linked.
  destruct (planeMesh s), (getArray (pointerTrail s) (heap s)); apply _.
Defined.

#[export] Instance running_dec {num : Type} `{Number num} (s : Sketch num) :
  Decision (running s).
Proof. unfold running. apply _. Defined.

(** ** Binary64 numbers *)

(** What [n] steps of [shr_1], the one-bit right shift of [SpecFloat], know
    of the number [M] they shift: the quotient [shr_m], and through the round
    and sticky bits where twice the remainder [D] lies. *)
Definition shr_inv (M n : Z) (mrs : shr_record) : Prop :=
  exists D : Z,
    (2 * M = 2 ^ (n + 1) * shr_m mrs + D /\ 0 <= D < 2 ^ (n + 1) /\
     0 <= shr_m mrs /\
     (shr_r mrs = true <-> 2 ^ n <= D) /\
     (shr_s mrs = true <-> D <> if shr_r mrs then 2 ^ n else 0))%Z.

(** What [binary_round_aux] does after its first shift: the rounded mantissa
    is shifted once more if rounding carried, and the exponent is checked
    against the largest one. *)
Definition round_finish (sx : bool) (m e : Z) : spec_float :=
  let '(mrs, e') := shr_fexp prec emax m e loc_Exact in
  match shr_m mrs with
  | Z0 => S754_zero sx
  | Zpos m =>
      if (e' <=? emax - prec)%Z then S754_finite sx m e' else S754_infinity sx
  | Zneg _ => S754_nan
  end.

(** The binary64 value of the literal 0.01 is [tick_mantissa * 2 ^ -59]. *)
Definition tick_mantissa : positive := 5764607523034235.

(** The rational a binary64 number stands for; none for NaN and the
    infinities. *)
Definition SF2Q (x : spec_float) : option Q :=
  match x with
  | S754_zero _ => Some 0%Q
  | S754_finite s m e =>
      Some ((if s then -1 else 1) * inject_Z (Zpos m) * 2 ^ e)%Q
  | _ => None
  end.

Definition float_value (x : float) : option Q := SF2Q (Prim2SF x).

(** ** Concrete inputs *)

(** A 800 by 600 window, the canvas at offset (10, 20), over binary64. *)
Definition sample_device : Device.t float :=
  Device.make 800%float 600%float 1%float.

Definition sample_rect : DOMRect.t float :=
  DOMRect.make 10%float 20%float 800%float 600%float.

(** The pointer visits the centre, the top-left corner and the bottom-right
    corner of the canvas, a frame being drawn after the first two; then the
    window is resized. *)
Definition sample_events : list (Event float) :=
  [MouseMove 410%float 320%float sample_rect; AnimationFrame 16.7%float;
   MouseMove 10%float 20%float sample_rect; AnimationFrame 33.4%float;
   MouseMove 810%float 620%float sample_rect;
   WindowResize 1024%float 512%float].

Definition sample_sketch : Sketch float :=
  default (constructor_fields sample_device)
    (s ← constructor sample_device; run sample_events s).

Definition sample_trail : list (Vector2.t float) :=
  Vector2.make (-1)%float 1%float :: Vector2.make 0%float 0%float ::
  replicate 13 (Vector2.make 0%float 0%float).

Definition sample_pointer : Vector2.t float :=
  Vector2.make 1%float (-1)%float.

(** The sketch as the constructor returns it. *)
Definition constructed_sketch : Sketch float :=
  default (constructor_fields sample_device) (constructor sample_device).

(** A sketch whose [trailLength] is one more than its array has slots. *)
Definition short_trail_sketch : Sketch float :=
  {| time := time constructed_sketch;
     trailLength := 16;
     pointerTrail := pointerTrail constructed_sketch;
     mousePosition := mousePosition constructed_sketch;
     camera_aspect := camera_aspect constructed_sketch;
     renderer_size := renderer_size constructed_sketch;
     stats := stats constructed_sketch;
     planeMesh := planeMesh constructed_sketch;
     device := device constructed_sketch;
     heap := heap constructed_sketch;
     listeners := listeners constructed_sketch;
     frames_requested := frames_requested constructed_sketch;
     trace := trace constructed_sketch |}.

(** Fifteen frames and a resize, the pointer at rest. *)
Definition idle_events : list (Event float) :=
  replicate 8 (AnimationFrame 0%float) ++
  [WindowResize 1024%float 512%float] ++
  replicate 7 (AnimationFrame 0%float).




(** * Reasoning about the store *)

Section HeapFacts.
Context {num : Type} `{Number num}.

Implicit Types (h : Heap num) (l a dst src : loc) (v : Vector2.t num).

Lemma getVector2_store l l' o h :
  getVector2 l (store l' o h) =
    if decide (l' = l)
    then match o with ObjVector2 v => Some v | ObjArray _ => None end
    else getVector2 l h.
Proof.
  unfold getVector2, store; simpl. rewrite lookup_insert.
  case_decide; [by destruct o | done].
Qed.

Lemma getArray_store a l' o h :
  getArray a (store l' o h) =
    if decide (l' = a)
    then match o with ObjArray e => Some e | ObjVector2 _ => None end
    else getArray a h.
Proof.
  unfold getArray, store; simpl. rewrite lookup_insert.
  case_decide; [by destruct o | done].
Qed.

(** A location holds a vector or an array, never both. *)
Lemma getVector2_getArray l h v :
  getVector2 l h = Some v -> getArray l h = None.
Proof.
  unfold getVector2, getArray.
  destruct (cells h !! l) as [[?|?]|]; congruence.
Qed.

(** Writing a vector over a vector leaves every array as it is. *)
Lemma getArray_store_vector a l v h :
  is_Some (getVector2 l h) ->
  getArray a (store l (ObjVector2 v) h) = getArray a h.
Proof.
  intros [w Hw]. rewrite getArray_store. case_decide; [|done].
  subst. symmetry. by eapply getVector2_getArray.
Qed.

Lemma Vector2_copy_Some dst src h v :
  getVector2 src h = Some v -> is_Some (getVector2 dst h) ->
  Vector2_copy dst src h = Some (store dst (ObjVector2 v) h).
Proof.
  intros Hs [w Hd]. unfold Vector2_copy. by rewrite Hs; simpl; rewrite Hd.
Qed.

Lemma index_Some a elems i h :
  getArray a h = Some elems -> index a i h = elems !! i.
Proof. intros Ha. unfold index. by rewrite Ha. Qed.

(** The loop of [updatePointerTrail] on an array of pairwise distinct
    vectors: it runs to its end, slot [k] for [1 <= k <= i] receives what
    slot [k - 1] held, and nothing else changes. *)
Lemma shift_from_spec a elems i : forall h,
  getArray a h = Some elems ->
  NoDup elems ->
  Forall (fun l => is_Some (getVector2 l h)) elems ->
  (i < length elems)%nat ->
  exists h',
    shift_from a i h = Some h' /\
    next h' = next h /\
    (forall b, getArray b h' = getArray b h) /\
    (forall l, l ∉ elems -> getVector2 l h' = getVector2 l h) /\
    (forall k l, elems !! k = Some l ->
       getVector2 l h' =
         if decide (1 <= k <= i)%nat
         then l' ← elems !! (k - 1)%nat; getVector2 l' h
         else getVector2 l h).
Proof.
  induction i as [|j IH]; intros h Ha Hnd Hvec Hlen.
  - exists h. repeat split; try done.
    intros k l _. case_decide; [lia | done].
  - destruct (lookup_lt_is_Some_2 elems (S j) Hlen) as [dst Hdst].
    destruct (lookup_lt_is_Some_2 elems j ltac:(lia)) as [src Hsrc].
    destruct (proj1 (Forall_lookup _ _) Hvec _ _ Hsrc) as [v Hv].
    pose proof (proj1 (Forall_lookup _ _) Hvec _ _ Hdst) as Hdv.
    set (h1 := store dst (ObjVector2 v) h).
    assert (Hb1 : forall b, getArray b h1 = getArray b h)
      by (intros b; by apply getArray_store_vector).
    destruct (IH h1) as (h' & Hrun & Hnext & Harr & Hout & Hin).
    { by rewrite Hb1. }
    { done. }
    { apply Forall_forall. intros l Hl. unfold h1. rewrite getVector2_store.
      case_decide; [by eexists|].
      by apply (proj1 (Forall_forall _ _) Hvec). }
    { lia. }
    exists h'. split; [|split; [|split; [|split]]].
    + cbn [shift_from].
      rewrite (index_Some _ _ (S j) _ Ha), Hdst; cbn [mbind option_bind].
      rewrite (index_Some _ _ j _ Ha), Hsrc; cbn [mbind option_bind].
      rewrite (Vector2_copy_Some _ _ _ _ Hv Hdv); cbn [mbind option_bind].
      exact Hrun.
    + by rewrite Hnext.
    + intros b. by rewrite Harr, Hb1.
    + intros l Hl. rewrite (Hout l Hl). unfold h1. rewrite getVector2_store.
      case_decide; [|done]. subst l. exfalso. apply Hl.
      by eapply list_elem_of_lookup_2.
    + intros k l Hk. rewrite (Hin k l Hk).
      destruct (decide (k = S j)) as [->|Hne].
      * assert (l = dst) by congruence. subst l.
        rewrite decide_False by lia. rewrite decide_True by lia.
        unfold h1. rewrite getVector2_store, decide_True by done.
        replace (S j - 1)%nat with j by lia. by rewrite Hsrc.
      * assert (Hld : dst <> l).
        { intros <-. apply Hne. by eapply NoDup_lookup. }
        destruct (decide (1 <= k <= j)%nat) as [Hkj|Hkj].
        -- rewrite decide_True by lia.
           destruct (elems !! (k - 1)%nat) as [l'|] eqn:Hl'; [|done]. simpl.
           unfold h1. rewrite getVector2_store. case_decide; [|done].
           subst l'. exfalso.
           assert (S j = (k - 1)%nat) by (by eapply NoDup_lookup). lia.
        -- rewrite decide_False by lia.
           unfold h1. rewrite getVector2_store. by rewrite decide_False.
Qed.

End HeapFacts.

(** * The methods on a well-formed sketch *)

Section SketchFacts.
Context {num : Type} `{Number num}.

Implicit Types (s : Sketch num) (h : Heap num) (v p : Vector2.t num).

Lemma wf_elems s :
  wf s ->
  exists elems,
    getArray (pointerTrail s) (heap s) = Some elems /\
    length elems = trailLength s /\
    (0 < trailLength s)%nat /\
    NoDup elems /\
    (mousePosition s ∉ elems) /\
    is_Some (getVector2 (mousePosition s) (heap s)) /\
    Forall (fun l => is_Some (getVector2 l (heap s))) elems.
Proof.
  unfold wf. destruct (getArray _ _) as [elems|]; [|done].
  intros (Hlen & Hpos & Hnd & Hvec). exists elems.
  apply list.NoDup_cons in Hnd as [Hm Hnd].
  apply list.Forall_cons in Hvec as [Hmv Hvec].
  done.
Qed.

(** Slot by slot reading of an array of vectors. *)
Lemma readArray_Some a h elems vs :
  getArray a h = Some elems ->
  readArray a h = Some vs <->
  length elems = length vs /\
  forall k l v, elems !! k = Some l -> vs !! k = Some v ->
    getVector2 l h = Some v.
Proof.
  intros Ha. unfold readArray. rewrite Ha; cbn [mbind option_bind].
  rewrite mapM_Some. apply Forall2_same_length_lookup.
Qed.

Lemma readArray_is_Some a h elems :
  getArray a h = Some elems ->
  Forall (fun l => is_Some (getVector2 l h)) elems ->
  is_Some (readArray a h).
Proof.
  intros Ha Hvec. unfold readArray. rewrite Ha; cbn [mbind option_bind].
  by apply mapM_is_Some.
Qed.

(** Two stores that agree on an array and on its slots read the same. *)
Lemma readArray_agree a h h' elems :
  getArray a h = Some elems -> getArray a h' = Some elems ->
  (forall l, l ∈ elems -> getVector2 l h' = getVector2 l h) ->
  readArray a h' = readArray a h.
Proof.
  intros Ha Ha' Hag. unfold readArray. rewrite Ha, Ha'; cbn [mbind option_bind].
  clear Ha Ha'. induction elems as [|l ls IH]; [done|].
  cbn [mapM]. rewrite (Hag l) by (by left).
  rewrite IH; [done|]. intros l' Hl'. apply Hag. by right.
Qed.

(** [updatePointerTrail] at the level of the store. *)
Lemma updatePointerTrail_store s elems :
  wf s -> getArray (pointerTrail s) (heap s) = Some elems ->
  exists h',
    updatePointerTrail s = Some (set_heap h' s) /\
    next h' = next (heap s) /\
    (forall b, getArray b h' = getArray b (heap s)) /\
    (forall l, l ∉ elems -> getVector2 l h' = getVector2 l (heap s)) /\
    (forall k l, elems !! k = Some l ->
       getVector2 l h' =
         match k with
         | O => getVector2 (mousePosition s) (heap s)
         | S k' => l' ← elems !! k'; getVector2 l' (heap s)
         end).
Proof.
  intros Hwf Ha.
  destruct (wf_elems s Hwf) as (elems' & Ha' & Hlen & Hpos & Hnd & Hm & Hmv & Hvec).
  assert (elems' = elems) by congruence. subst elems'. clear Ha'.
  destruct (shift_from_spec (pointerTrail s) elems (trailLength s - 1) (heap s))
    as (h1 & Hrun & Hnext & Harr & Hout & Hin); [done|done|done|lia|].
  destruct (lookup_lt_is_Some_2 elems 0 ltac:(lia)) as [d0 Hd0].
  destruct Hmv as [p Hp].
  assert (Hp1 : getVector2 (mousePosition s) h1 = Some p)
    by (by rewrite Hout).
  assert (Hd1 : is_Some (getVector2 d0 h1)).
  { rewrite (Hin 0%nat d0 Hd0), decide_False by lia.
    by apply (proj1 (Forall_lookup _ _) Hvec 0%nat). }
  exists (store d0 (ObjVector2 p) h1). split; [|split; [|split; [|split]]].
  - unfold updatePointerTrail. rewrite Hrun; cbn [mbind option_bind].
    rewrite (index_Some _ elems) by (by rewrite Harr).
    rewrite Hd0; cbn [mbind option_bind].
    by rewrite (Vector2_copy_Some _ _ _ _ Hp1 Hd1).
  - done.
  - intros b. by rewrite getArray_store_vector, Harr.
  - intros l Hl. rewrite getVector2_store. case_decide.
    + subst l. exfalso. apply Hl. by eapply list_elem_of_lookup_2.
    + by apply Hout.
  - intros k l Hk. rewrite getVector2_store. destruct k as [|k'].
    + assert (d0 = l) by congruence. by rewrite decide_True.
    + rewrite decide_False.
      2:{ intros ->. by pose proof (NoDup_lookup _ _ _ _ Hnd Hd0 Hk). }
      rewrite (Hin _ _ Hk). apply lookup_lt_Some in Hk.
      rewrite decide_True by lia. by replace (S k' - 1)%nat with k' by lia.
Qed.

(** Two sketches with the same fields are the same sketch. *)
Lemma Sketch_ext s1 s2 :
  time s1 = time s2 -> trailLength s1 = trailLength s2 ->
  pointerTrail s1 = pointerTrail s2 -> mousePosition s1 = mousePosition s2 ->
  camera_aspect s1 = camera_aspect s2 ->
  renderer_size s1 = renderer_size s2 -> stats s1 = stats s2 ->
  planeMesh s1 = planeMesh s2 -> device s1 = device s2 ->
  heap s1 = heap s2 -> listeners s1 = listeners s2 ->
  frames_requested s1 = frames_requested s2 -> trace s1 = trace s2 ->
  s1 = s2.
Proof. destruct s1, s2; cbn. by intros; subst. Qed.

(** [updatePointerTrail] reads four fields only. *)
Lemma updatePointerTrail_congr s1 s h' :
  pointerTrail s1 = pointerTrail s -> trailLength s1 = trailLength s ->
  heap s1 = heap s -> mousePosition s1 = mousePosition s ->
  updatePointerTrail s = Some (set_heap h' s) ->
  updatePointerTrail s1 = Some (set_heap h' s1).
Proof.
  intros Ha Hn Hh Hm. unfold updatePointerTrail. rewrite Ha, Hn, Hh, Hm.
  destruct (shift_from _ _ _) as [h1|]; cbn [mbind option_bind]; [|done].
  destruct (index _ _ _) as [d|]; cbn [mbind option_bind]; [|done].
  destruct (Vector2_copy _ _ _) as [h2|]; cbn [mbind option_bind]; [|done].
  by intros [= ->].
Qed.

(** [wf] and [feed_linked] read the store through vectors and arrays only. *)
Lemma wf_store_agree s s' :
  pointerTrail s' = pointerTrail s -> trailLength s' = trailLength s ->
  mousePosition s' = mousePosition s ->
  (forall b, getArray b (heap s') = getArray b (heap s)) ->
  (forall l, is_Some (getVector2 l (heap s)) ->
             is_Some (getVector2 l (heap s'))) ->
  wf s -> wf s'.
Proof.
  intros Ha Hn Hm Harr Hvec. unfold wf. rewrite Ha, Hn, Hm, Harr.
  destruct (getArray _ _) as [elems|]; [|done].
  intros (? & ? & ? & Hall). repeat split; try done.
  eapply list.Forall_impl; [exact Hall|]. intros l. apply Hvec.
Qed.

Lemma feed_linked_store_agree s s' :
  pointerTrail s' = pointerTrail s -> mousePosition s' = mousePosition s ->
  match planeMesh s, planeMesh s' with
  | Some u, Some u' =>
      Uniforms.uPointerTrail u' = Uniforms.uPointerTrail u /\
      Uniforms.uResolution u' = Uniforms.uResolution u
  | None, _ => True
  | Some _, None => False
  end ->
  (forall b, getArray b (heap s') = getArray b (heap s)) ->
  (forall l, is_Some (getVector2 l (heap s)) ->
             is_Some (getVector2 l (heap s'))) ->
  feed_linked s -> feed_linked s'.
Proof.
  intros Ha Hm Hu Harr Hvec. unfold feed_linked. rewrite Ha, Hm, Harr.
  destruct (planeMesh s) as [u|]; [|done].
  destruct (planeMesh s') as [u'|]; [|done]. destruct Hu as [-> ->].
  destruct (getArray _ _) as [elems|]; [|done].
  intros (? & ? & ?). repeat split; try done. by apply Hvec.
Qed.

(** The store after [updatePointerTrail] still holds a vector wherever it
    held one. *)
Lemma updatePointerTrail_keeps_vectors s elems h' :
  wf s -> getArray (pointerTrail s) (heap s) = Some elems ->
  (forall l, l ∉ elems -> getVector2 l h' = getVector2 l (heap s)) ->
  (forall k l, elems !! k = Some l ->
     getVector2 l h' =
       match k with
       | O => getVector2 (mousePosition s) (heap s)
       | S k' => l' ← elems !! k'; getVector2 l' (heap s)
       end) ->
  forall l, is_Some (getVector2 l (heap s)) -> is_Some (getVector2 l h').
Proof.
  intros Hwf Ha Hout Hin l Hl.
  destruct (wf_elems s Hwf) as (elems' & Ha' & Hlen & Hpos & Hnd & Hm & Hmv & Hvec).
  assert (elems' = elems) by congruence. subst elems'.
  destruct (decide (l ∈ elems)) as [Hel|Hnel]; [|by rewrite Hout].
  apply list_elem_of_lookup in Hel as [k Hk]. rewrite (Hin k l Hk).
  destruct k as [|k']; [done|].
  destruct (lookup_lt_is_Some_2 elems k') as [l' Hl'].
  { apply lookup_lt_Some in Hk. lia. }
  rewrite Hl'; cbn [mbind option_bind].
  by apply (proj1 (Forall_lookup _ _) Hvec k').
Qed.

(** The trail after [updatePointerTrail], as a list. *)
Lemma updatePointerTrail_values s elems h' old p :
  wf s -> getArray (pointerTrail s) (heap s) = Some elems ->
  readArray (pointerTrail s) (heap s) = Some old ->
  getVector2 (mousePosition s) (heap s) = Some p ->
  (forall b, getArray b h' = getArray b (heap s)) ->
  (forall k l, elems !! k = Some l ->
     getVector2 l h' =
       match k with
       | O => getVector2 (mousePosition s) (heap s)
       | S k' => l' ← elems !! k'; getVector2 l' (heap s)
       end) ->
  readArray (pointerTrail s) h' =
    Some (p :: take (trailLength s - 1) old).
Proof.
  intros Hwf Ha Hold Hp Harr Hin.
  destruct (wf_elems s Hwf) as (elems' & Ha' & Hlen & Hpos & Hnd & Hm & Hmv & Hvec).
  assert (elems' = elems) by congruence. subst elems'.
  apply (readArray_Some _ _ _ _ Ha) in Hold as [Hlo Hold].
  apply (readArray_Some _ _ elems); [by rewrite Harr|]. split.
  - cbn [length]. rewrite length_take. lia.
  - intros k l v Hk Hv. rewrite (Hin k l Hk). destruct k as [|k'].
    + simpl in Hv. congruence.
    + simpl in Hv. apply lookup_take_Some in Hv as [Hv Hlt].
      destruct (lookup_lt_is_Some_2 elems k') as [l' Hl'].
      { apply lookup_lt_Some in Hk. lia. }
      rewrite Hl'; cbn [mbind option_bind]. by eapply Hold.
Qed.

Lemma wf_values s :
  wf s ->
  exists old p,
    trail_values s = Some old /\ pointer_value s = Some p /\
    length old = trailLength s.
Proof.
  intros Hwf.
  destruct (wf_elems s Hwf) as (elems & Ha & Hlen & Hpos & Hnd & Hm & Hmv & Hvec).
  destruct (readArray_is_Some _ _ _ Ha Hvec) as [old Hold].
  destruct Hmv as [p Hp]. exists old, p. repeat split; try done.
  apply (readArray_Some _ _ _ _ Ha) in Hold as [Hlo _]. lia.
Qed.

(** [updatePointerTrail] on a well-formed sketch: it returns, only the store
    changes, the trail is the old one shifted by one slot behind the current
    pointer, and everything outside the trail slots is as before. *)
Lemma updatePointerTrail_spec s old p :
  wf s -> trail_values s = Some old -> pointer_value s = Some p ->
  exists h',
    updatePointerTrail s = Some (set_heap h' s) /\
    wf (set_heap h' s) /\
    (feed_linked s -> feed_linked (set_heap h' s)) /\
    readArray (pointerTrail s) h' = Some (p :: take (trailLength s - 1) old) /\
    getVector2 (mousePosition s) h' = Some p /\
    (feed_linked s ->
     resolution_value (set_heap h' s) = resolution_value s) /\
    (forall b, getArray b h' = getArray b (heap s)).
Proof.
  intros Hwf Hold Hp.
  destruct (wf_elems s Hwf) as (elems & Ha & Hlen & Hpos & Hnd & Hm & Hmv & Hvec).
  destruct (updatePointerTrail_store s elems Hwf Ha)
    as (h' & Hupd & Hnext & Harr & Hout & Hin).
  pose proof (updatePointerTrail_keeps_vectors s elems h' Hwf Ha Hout Hin)
    as Hkeep.
  exists h'. split; [done|]. split; [|split; [|split; [|split; [|split]]]].
  - by apply (wf_store_agree s).
  - apply (feed_linked_store_agree s); try done.
    simpl. by destruct (planeMesh s).
  - by eapply updatePointerTrail_values.
  - by rewrite Hout.
  - unfold feed_linked, resolution_value; simpl. rewrite Ha.
    destruct (planeMesh s) as [u|]; [|done]; cbn [mbind option_bind].
    intros (_ & Hres & _). apply Hout. intros Hel. apply Hres. by right.
  - done.
Qed.

(** The [mousemove] listener on a well-formed sketch: it returns, and it
    writes the current pointer's vector and nothing else. *)
Lemma onMouseMove_spec clientX clientY rect s :
  wf s ->
  exists h',
    onMouseMove clientX clientY rect s = Some (set_heap h' s) /\
    getVector2 (mousePosition s) h' =
      Some (Vector2.make
              (((clientX - DOMRect.left rect) / DOMRect.width rect) * num_2
               - num_1)
              (- ((clientY - DOMRect.top rect) / DOMRect.height rect) * num_2
               + num_1))%num /\
    (forall l, l <> mousePosition s ->
       getVector2 l h' = getVector2 l (heap s)) /\
    (forall b, getArray b h' = getArray b (heap s)).
Proof.
  intros Hwf.
  destruct (wf_elems s Hwf) as (elems & Ha & Hlen & Hpos & Hnd & Hm & [p Hp] & Hvec).
  unfold onMouseMove, Vector2_set_x, Vector2_set_y.
  rewrite Hp; cbn [mbind option_bind].
  rewrite getVector2_store, decide_True by done; cbn [mbind option_bind].
  eexists. split; [reflexivity|]. split; [|split].
  - by rewrite getVector2_store, decide_True.
  - intros l Hl. by rewrite !getVector2_store, !decide_False.
  - intros b. rewrite !getArray_store_vector; [done|by eexists|].
    rewrite getVector2_store, decide_True by done. by eexists.
Qed.

Lemma onMouseMove_wf clientX clientY rect s :
  wf s ->
  exists s',
    onMouseMove clientX clientY rect s = Some s' /\
    wf s' /\ (feed_linked s -> feed_linked s') /\
    trail_values s' = trail_values s /\
    (feed_linked s -> resolution_value s' = resolution_value s) /\
    time s' = time s /\ frames_requested s' = frames_requested s /\
    listeners s' = listeners s /\ trailLength s' = trailLength s.
Proof.
  intros Hwf.
  destruct (wf_elems s Hwf) as (elems & Ha & Hlen & Hpos & Hnd & Hm & Hmv & Hvec).
  destruct (onMouseMove_spec clientX clientY rect s Hwf)
    as (h' & Hrun & Hptr & Hother & Harr).
  assert (Hkeep : forall l, is_Some (getVector2 l (heap s)) ->
                            is_Some (getVector2 l h')).
  { intros l Hl. destruct (decide (l = mousePosition s)) as [->|Hne].
    - by rewrite Hptr.
    - by rewrite Hother. }
  exists (set_heap h' s). split; [done|].
  split; [|split; [|split; [|split]]]; try done.
  - by apply (wf_store_agree s).
  - apply (feed_linked_store_agree s); try done.
    simpl. by destruct (planeMesh s).
  - unfold trail_values; simpl. apply (readArray_agree _ _ _ elems).
    + done.
    + by rewrite Harr.
    + intros l Hl. apply Hother. by intros ->.
  - unfold feed_linked, resolution_value; simpl. rewrite Ha.
    destruct (planeMesh s) as [u|]; [|done]; cbn [mbind option_bind].
    intros (_ & Hres & _). apply Hother. intros Heq. apply Hres.
    rewrite Heq. by left.
Qed.

(** One call of [render] on a well-formed sketch whose uniforms are linked:
    the resulting sketch, field by field. *)
Lemma render_spec s u old p :
  wf s -> feed_linked s -> planeMesh s = Some u ->
  trail_values s = Some old -> pointer_value s = Some p ->
  exists h' r,
    resolution_value s = Some r /\
    readArray (pointerTrail s) h' = Some (p :: take (trailLength s - 1) old) /\
    getVector2 (mousePosition s) h' = Some p /\
    getVector2 (Uniforms.uResolution u) h' = Some r /\
    (forall b, getArray b h' = getArray b (heap s)) /\
    render s =
      Some {| time := (time s + num_0_01)%num;
              trailLength := trailLength s;
              pointerTrail := pointerTrail s;
              mousePosition := mousePosition s;
              camera_aspect := camera_aspect s;
              renderer_size := renderer_size s;
              stats := stats s;
              planeMesh :=
                Some (Uniforms.make (time s + num_0_01)%num
                        (Uniforms.uResolution u) (pointerTrail s));
              device := device s;
              heap := h';
              listeners := listeners s;
              frames_requested := S (frames_requested s);
              trace :=
                trace s ++
                tick_trace (stats s) (time s + num_0_01)%num r
                  (p :: take (trailLength s - 1) old) |} /\
    wf (set_heap h' s) /\ feed_linked (set_heap h' s).
Proof.
  intros Hwf Hfeed Hu Hold Hp.
  destruct (updatePointerTrail_spec s old p Hwf Hold Hp)
    as (h' & Hupd & Hwf' & Hfeed' & Hnew & Hp' & Hres & Harr).
  specialize (Hfeed' Hfeed). specialize (Hres Hfeed).
  assert (Hlink : Uniforms.uPointerTrail u = pointerTrail s).
  { unfold feed_linked in Hfeed. rewrite Hu in Hfeed.
    destruct (getArray _ _); [|done]. by destruct Hfeed. }
  assert (Hr : exists r, resolution_value s = Some r).
  { unfold feed_linked in Hfeed. unfold resolution_value. rewrite Hu in *.
    destruct (getArray _ _); [|done]. destruct Hfeed as (_ & _ & [r Hr]).
    by exists r. }
  destruct Hr as [r Hr]. exists h', r.
  assert (Hr' : getVector2 (Uniforms.uResolution u) h' = Some r).
  { unfold resolution_value in Hres, Hr. simpl in Hres.
    rewrite Hu in Hres, Hr. simpl in Hres, Hr. congruence. }
  repeat (split; [done|]). split; [|done].
  unfold render.
  set (s1 := emit _ (set_time _ (stats_call StatsBegin s))).
  rewrite (updatePointerTrail_congr s1 s h');
    [|by unfold s1, stats_call; destruct (stats s)..|done].
  cbn [mbind option_bind].
  assert (Hu1 : planeMesh (emit PointerTrailUpdated (set_heap h' s1)) = Some u).
  { simpl. unfold stats_call. by destruct (stats s). }
  rewrite Hu1; cbn [mbind option_bind].
  unfold renderer_render. cbn [planeMesh emit set_planeMesh mbind option_bind].
  cbn [Uniforms.uResolution Uniforms.uPointerTrail Uniforms.time heap emit
       set_planeMesh set_heap].
  rewrite Hr'; cbn [mbind option_bind].
  rewrite Hlink, Hnew; cbn [mbind option_bind].
  f_equal. unfold s1, stats_call, tick_trace.
  destruct (stats s) eqn:Hst; apply Sketch_ext;
    do 2 (cbn [time trailLength pointerTrail mousePosition camera_aspect
               renderer_size stats planeMesh device heap listeners
               frames_requested trace
               set_frames_requested emit set_planeMesh set_heap set_time];
          rewrite ?Hst);
    rewrite <- ?app_assoc; reflexivity.
Qed.

(** What a tick keeps and what it changes. *)
Lemma render_wf s :
  wf s -> feed_linked s ->
  exists s',
    render s = Some s' /\ wf s' /\ feed_linked s' /\
    time s' = (time s + num_0_01)%num /\
    frames_requested s' = S (frames_requested s) /\
    listeners s' = listeners s /\ trailLength s' = trailLength s /\
    resolution_value s' = resolution_value s /\
    pointer_value s' = pointer_value s /\
    forall old p, trail_values s = Some old -> pointer_value s = Some p ->
      trail_values s' = Some (p :: take (trailLength s - 1) old).
Proof.
  intros Hwf Hfeed.
  destruct (wf_values s Hwf) as (old & p & Hold & Hp & Hlen).
  assert (Hu : exists u, planeMesh s = Some u).
  { unfold feed_linked in Hfeed. destruct (planeMesh s); [by eexists|done]. }
  destruct Hu as [u Hu].
  destruct (render_spec s u old p Hwf Hfeed Hu Hold Hp)
    as (h' & r & Hr & Hnew & Hp' & Hr' & Harr & Hrun & Hwf' & Hfeed').
  eexists. split; [exact Hrun|].
  cbn [time trailLength frames_requested listeners].
  split_and!; try reflexivity.
  - exact Hwf'.
  - apply (feed_linked_store_agree (set_heap h' s)); try done.
    cbn [planeMesh set_heap]. rewrite Hu.
    cbn [Uniforms.uPointerTrail Uniforms.uResolution]. split; [|done].
    unfold feed_linked in Hfeed. rewrite Hu in Hfeed.
    destruct (getArray _ _); [|done]. by destruct Hfeed.
  - unfold resolution_value at 1.
    cbn [planeMesh heap mbind option_bind Uniforms.uResolution].
    by rewrite Hr', Hr.
  - unfold pointer_value at 1. cbn [mousePosition heap]. by rewrite Hp', Hp.
  - intros old' p'. rewrite Hold, Hp. intros [= <-] [= <-]. exact Hnew.
Qed.

(** [onResize] does not touch the store. *)
Lemma onResize_frame innerWidth innerHeight s :
  heap (onResize innerWidth innerHeight s) = heap s /\
  pointerTrail (onResize innerWidth innerHeight s) = pointerTrail s /\
  mousePosition (onResize innerWidth innerHeight s) = mousePosition s /\
  trailLength (onResize innerWidth innerHeight s) = trailLength s /\
  planeMesh (onResize innerWidth innerHeight s) = planeMesh s /\
  time (onResize innerWidth innerHeight s) = time s /\
  listeners (onResize innerWidth innerHeight s) = listeners s /\
  frames_requested (onResize innerWidth innerHeight s) = frames_requested s.
Proof. by repeat split. Qed.

Lemma onResize_running innerWidth innerHeight s :
  running s -> running (onResize innerWidth innerHeight s).
Proof. intros Hrun. exact Hrun. Qed.

(** Every event is handled without an exception, and the running sketch
    stays a running sketch. *)
Lemma dispatch_running e s :
  running s ->
  exists s',
    dispatch e s = Some s' /\ running s' /\
    trailLength s' = trailLength s /\
    resolution_value s' = resolution_value s /\
    time s' = (if is_frame e then (time s + num_0_01)%num else time s) /\
    (is_mousemove e = false -> pointer_value s' = pointer_value s) /\
    (is_frame e = false -> trail_values s' = trail_values s) /\
    (forall old p, is_frame e = true ->
       trail_values s = Some old -> pointer_value s = Some p ->
       trail_values s' = Some (p :: take (trailLength s - 1) old)).
Proof.
  intros (Hwf & Hfeed & Hfr & Hlr & Hlm). destruct e as [now|cx cy rect|w h].
  - cbn [dispatch is_frame is_mousemove]. rewrite Hfr.
    destruct (render_wf (set_frames_requested 0 s) Hwf Hfeed)
      as (s' & Hrun & Hwf' & Hfeed' & Ht & Hfr' & Hl & Hn & Hres & Hp & Htr).
    exists s'. split; [exact Hrun|]. unfold running. split_and!.
    + exact Hwf'.
    + exact Hfeed'.
    + rewrite Hfr'. reflexivity.
    + rewrite Hl. exact Hlr.
    + rewrite Hl. exact Hlm.
    + exact Hn.
    + exact Hres.
    + exact Ht.
    + intros _. exact Hp.
    + intros [=].
    + intros old p _. exact (Htr old p).
  - cbn [dispatch is_frame is_mousemove]. rewrite decide_True by done.
    destruct (onMouseMove_wf cx cy rect s Hwf)
      as (s' & Hrun & Hwf' & Hfeed' & Htr & Hres & Ht & Hfr' & Hl & Hn).
    exists s'. split; [exact Hrun|]. unfold running. split_and!.
    + exact Hwf'.
    + by apply Hfeed'.
    + by rewrite Hfr'.
    + by rewrite Hl.
    + by rewrite Hl.
    + exact Hn.
    + by apply Hres.
    + exact Ht.
    + intros [=].
    + intros _. exact Htr.
    + intros old p [=].
  - cbn [dispatch is_frame is_mousemove]. rewrite decide_True by done.
    eexists. split; [reflexivity|]. unfold running.
    split_and!; try reflexivity.
    + exact Hwf.
    + exact Hfeed.
    + exact Hfr.
    + exact Hlr.
    + exact Hlm.
    + intros old p [=].
Qed.

(** The constructor: it returns a running sketch that has rendered one
    frame; every vector it allocated is still (0, 0), apart from the
    resolution, which holds the device size. *)
Lemma constructor_fields_spec dev :
  wf (constructor_fields dev) /\
  time (constructor_fields dev) = num_0 /\
  trailLength (constructor_fields dev) = 15%nat /\
  trail_values (constructor_fields dev) =
    Some (replicate 15 (Vector2.make num_0 num_0)) /\
  pointer_value (constructor_fields dev) = Some (Vector2.make num_0 num_0).
Proof.
  split; [|by vm_compute].
  apply (@bool_decide_unpack _ (wf_dec _)). by vm_compute.
Qed.

Lemma constructor_spec dev :
  exists s,
    constructor dev = Some s /\ running s /\
    time s = (num_0 + num_0_01)%num /\
    trailLength s = 15%nat /\
    trail_values s = Some (replicate 15 (Vector2.make num_0 num_0)) /\
    pointer_value s = Some (Vector2.make num_0 num_0) /\
    resolution_value s =
      Some (Vector2.make (Device.width dev) (Device.height dev)) /\
    device s = dev.
Proof.
  eexists. split; [by vm_compute|].
  split; [|by vm_compute].
  apply (@bool_decide_unpack _ (running_dec _)). by vm_compute.
Qed.

(** Any sequence of events is handled to its end. *)
Lemma run_running es : forall s,
  running s ->
  exists s',
    run es s = Some s' /\ running s' /\
    trailLength s' = trailLength s /\
    resolution_value s' = resolution_value s /\
    time s' = advance_time (count_frames es) (time s) /\
    (no_mousemove es = true -> pointer_value s' = pointer_value s).
Proof.
  induction es as [|e es IH]; intros s Hrun.
  - exists s. by split_and!.
  - destruct (dispatch_running e s Hrun)
      as (s1 & Hd & Hrun1 & Hn1 & Hres1 & Ht1 & Hp1 & _).
    destruct (IH s1 Hrun1) as (s' & Hr & Hrun' & Hn & Hres & Ht & Hp).
    exists s'. split_and!.
    + cbn [run]. by rewrite Hd.
    + exact Hrun'.
    + by rewrite Hn.
    + by rewrite Hres.
    + rewrite Ht, Ht1. cbn [count_frames]. by destruct (is_frame e).
    + unfold no_mousemove. cbn [forallb]. intros [He Hes]%andb_prop.
      rewrite Hp by exact Hes. apply Hp1. by destruct (is_mousemove e).
Qed.

(** A trail of [n] equal vectors behind an equal pointer is a fixed point of
    the shift. *)
Lemma shift_replicate (z : Vector2.t num) n :
  (0 < n)%nat -> z :: take (n - 1) (replicate n z) = replicate n z.
Proof.
  intros Hn. rewrite take_replicate.
  replace (n - 1 `min` n)%nat with (n - 1)%nat by lia.
  destruct n as [|n']; [lia|]. cbn [replicate]. f_equal. f_equal. lia.
Qed.

Lemma dispatch_constant_trail e s z :
  running s -> is_mousemove e = false ->
  pointer_value s = Some z ->
  trail_values s = Some (replicate (trailLength s) z) ->
  exists s',
    dispatch e s = Some s' /\ running s' /\ trailLength s' = trailLength s /\
    pointer_value s' = Some z /\
    trail_values s' = Some (replicate (trailLength s) z).
Proof.
  intros Hrun He Hp Htr.
  destruct (dispatch_running e s Hrun)
    as (s' & Hd & Hrun' & Hn & _ & _ & Hp' & Hsame & Hshift).
  exists s'. split_and!; try done.
  - by rewrite Hp'.
  - destruct (is_frame e) eqn:Hf.
    + rewrite (Hshift _ _ eq_refl Htr Hp). f_equal. apply shift_replicate.
      destruct Hrun as (Hwf & _).
      by destruct (wf_elems s Hwf) as (? & _ & _ & Hpos & _).
    + by rewrite Hsame.
Qed.

Lemma run_constant_trail es z : forall s,
  running s -> no_mousemove es = true ->
  pointer_value s = Some z ->
  trail_values s = Some (replicate (trailLength s) z) ->
  exists s',
    run es s = Some s' /\ running s' /\ trailLength s' = trailLength s /\
    pointer_value s' = Some z /\
    trail_values s' = Some (replicate (trailLength s) z).
Proof.
  induction es as [|e es IH]; intros s Hrun Hes Hp Htr.
  - exists s. by split_and!.
  - unfold no_mousemove in Hes. cbn [forallb] in Hes.
    apply andb_prop in Hes as [He Hes].
    destruct (dispatch_constant_trail e s z Hrun) as (s1 & Hd & Hrun1 & Hn1 & Hp1 & Htr1);
      [by destruct (is_mousemove e)|done|done|].
    rewrite <- Hn1 in Htr1.
    destruct (IH s1 Hrun1 Hes Hp1 Htr1) as (s' & Hr & Hrun' & Hn & Hp' & Htr').
    exists s'. split_and!; try done.
    + cbn [run]. by rewrite Hd.
    + by rewrite Hn.
    + by rewrite Htr', Hn1.
Qed.

(** Calls of [updatePointerTrail] in a row. *)
Lemma repeat_updatePointerTrail k : forall s,
  wf s ->
  exists s',
    repeat_call updatePointerTrail k s = Some s' /\ wf s' /\
    trailLength s' = trailLength s /\
    pointer_value s' = pointer_value s /\
    length <$> trail_values s' = Some (trailLength s) /\
    forall z, pointer_value s = Some z ->
      trail_values s = Some (replicate (trailLength s) z) ->
      trail_values s' = Some (replicate (trailLength s) z).
Proof.
  induction k as [|k IH]; intros s Hwf.
  - exists s. destruct (wf_values s Hwf) as (old & p & Hold & Hp & Hlen).
    split_and!; try done. by rewrite Hold; cbn; rewrite Hlen.
  - destruct (wf_values s Hwf) as (old & p & Hold & Hp & Hlen).
    destruct (updatePointerTrail_spec s old p Hwf Hold Hp)
      as (h' & Hupd & Hwf' & _ & Hnew & Hp' & _ & _).
    destruct (IH (set_heap h' s) Hwf') as (s' & Hr & Hwf'' & Hn & Hpv & Hl & Hz).
    exists s'. split_and!; try done.
    + cbn [repeat_call]. by rewrite Hupd.
    + rewrite Hpv, Hp. exact Hp'.
    + intros z Hpz Htz. apply Hz.
      * unfold pointer_value. cbn [set_heap mousePosition heap].
        rewrite Hp'. congruence.
      * unfold trail_values. cbn [set_heap pointerTrail heap trailLength].
        rewrite Hnew. assert (p = z) by congruence. subst p.
        assert (old = replicate (trailLength s) z) by congruence. subst old.
        f_equal. apply shift_replicate.
        by destruct (wf_elems s Hwf) as (? & _ & _ & Hpos & _).
Qed.

(** The sketch as [init] finds it after [addGeometry], before the first
    tick. *)
Lemma addGeometry_spec dev :
  wf (addGeometry (initStats (constructor_fields dev))) /\
  feed_linked (addGeometry (initStats (constructor_fields dev))) /\
  time (addGeometry (initStats (constructor_fields dev))) = num_0.
Proof.
  split_and!.
  - apply (@bool_decide_unpack _ (wf_dec _)). by vm_compute.
  - apply (@bool_decide_unpack _ (feed_linked_dec _)). by vm_compute.
  - reflexivity.
Qed.

(** Calls of [render] in a row. *)
Lemma repeat_render k : forall s,
  wf s -> feed_linked s ->
  exists s',
    repeat_call render k s = Some s' /\ wf s' /\ feed_linked s' /\
    time s' = advance_time k (time s).
Proof.
  induction k as [|k IH]; intros s Hwf Hfeed.
  - exists s. by split_and!.
  - destruct (render_wf s Hwf Hfeed) as (s1 & Hr & Hwf1 & Hfeed1 & Ht & _).
    destruct (IH s1 Hwf1 Hfeed1) as (s' & Hk & Hwf' & Hfeed' & Ht').
    exists s'. split_and!; try done.
    + cbn [repeat_call]. by rewrite Hr.
    + rewrite Ht', Ht. reflexivity.
Qed.

End SketchFacts.

(** * The properties of the design *)

Section Claims.
Context {num : Type} `{Number num}.

Implicit Types (s : Sketch num) (v p : Vector2.t num).

(** C1. One call of [updatePointerTrail], on any well-formed trail buffer and
    any current pointer value [p]: the call returns, slot 0 then holds [p],
    and every slot [i] from 1 to N-1 holds what slot [i - 1] held before;
    what slot N-1 held is gone (the new trail is [p] followed by the first
    N-1 old values).  The current pointer itself is left as it was. *)
Theorem updatePointerTrail_shifts s old p :
  wf s -> trail_values s = Some old -> pointer_value s = Some p ->
  exists s' new,
    updatePointerTrail s = Some s' /\
    trail_values s' = Some new /\
    length new = trailLength s /\
    new !! 0%nat = Some p /\
    (forall i, (1 <= i < trailLength s)%nat ->
       new !! i = old !! (i - 1)%nat) /\
    new = p :: take (trailLength s - 1) old /\
    pointer_value s' = Some p.
Proof.
  intros Hwf Hold Hp.
  destruct (updatePointerTrail_spec s old p Hwf Hold Hp)
    as (h' & Hupd & Hwf' & _ & Hnew & Hp' & _ & _).
  destruct (wf_values s Hwf) as (old' & p' & Hold' & _ & Hlen).
  assert (old' = old) by congruence. subst old'.
  destruct (wf_elems s Hwf) as (? & _ & _ & Hpos & _).
  exists (set_heap h' s), (p :: take (trailLength s - 1) old).
  split_and!; try done.
  - cbn [length]. rewrite length_take. lia.
  - intros i [Hi1 Hi2]. destruct i as [|i']; [lia|].
    cbn [lookup list_lookup]. replace (S i' - 1)%nat with i' by lia.
    apply lookup_take_lt. lia.
Qed.

(** C4. The trail buffer is created with exactly 15 slots, and it still has
    15 slots, and [trailLength] is still 15, after any sequence of events
    followed by any number of calls of [updatePointerTrail]. *)
Theorem trail_length_constant (dev : Device.t num) (es : list (Event num))
    (k : nat) :
  exists s0 s1 s2,
    constructor dev = Some s0 /\
    trailLength (constructor_fields dev) = 15%nat /\
    length <$> trail_values (constructor_fields dev) = Some 15%nat /\
    trailLength s0 = 15%nat /\
    length <$> trail_values s0 = Some 15%nat /\
    run es s0 = Some s1 /\
    repeat_call updatePointerTrail k s1 = Some s2 /\
    trailLength s2 = 15%nat /\
    length <$> trail_values s2 = Some 15%nat.
Proof.
  destruct (constructor_spec dev)
    as (s0 & Hc & Hrun0 & _ & Hn0 & Htr0 & _).
  destruct (constructor_fields_spec dev) as (_ & _ & Hnf & Htrf & _).
  destruct (run_running es s0 Hrun0) as (s1 & Hr & Hrun1 & Hn1 & _).
  destruct Hrun1 as (Hwf1 & _).
  destruct (repeat_updatePointerTrail k s1 Hwf1)
    as (s2 & Hk & _ & Hn2 & _ & Hl2 & _).
  exists s0, s1, s2. split_and!.
  - exact Hc.
  - exact Hnf.
  - rewrite Htrf. cbn [fmap option_fmap option_map]. by rewrite length_replicate.
  - exact Hn0.
  - rewrite Htr0. cbn [fmap option_fmap option_map]. by rewrite length_replicate.
  - exact Hr.
  - exact Hk.
  - congruence.
  - rewrite Hl2. congruence.
Qed.

(** C9. The constructor leaves the current pointer and each of the 15 trail
    slots at (0, 0); as long as no [mousemove] event has been handled, any
    sequence of frames and resizes followed by any number of calls of
    [updatePointerTrail] leaves every slot at (0, 0). *)
Theorem trail_stays_at_origin (dev : Device.t num) (es : list (Event num))
    (k : nat) :
  no_mousemove es = true ->
  exists s0 s1 s2,
    pointer_value (constructor_fields dev) = Some origin /\
    trail_values (constructor_fields dev) = Some (replicate 15 origin) /\
    constructor dev = Some s0 /\
    pointer_value s0 = Some origin /\
    trail_values s0 = Some (replicate 15 origin) /\
    run es s0 = Some s1 /\
    repeat_call updatePointerTrail k s1 = Some s2 /\
    pointer_value s2 = Some origin /\
    trail_values s2 = Some (replicate 15 origin).
Proof.
  intros Hes.
  destruct (constructor_spec dev)
    as (s0 & Hc & Hrun0 & _ & Hn0 & Htr0 & Hp0 & _).
  destruct (constructor_fields_spec dev) as (_ & _ & _ & Htrf & Hpf).
  destruct (run_constant_trail es origin s0 Hrun0 Hes Hp0)
    as (s1 & Hr & Hrun1 & Hn1 & Hp1 & Htr1); [rewrite Hn0; exact Htr0|].
  destruct Hrun1 as (Hwf1 & _).
  destruct (repeat_updatePointerTrail k s1 Hwf1)
    as (s2 & Hk & _ & Hn2 & Hp2 & _ & Hz).
  exists s0, s1, s2. split_and!.
  - exact Hpf.
  - exact Htrf.
  - exact Hc.
  - exact Hp0.
  - exact Htr0.
  - exact Hr.
  - exact Hk.
  - rewrite Hp2. exact Hp1.
  - rewrite <- Hn0, <- Hn1. apply Hz; [exact Hp1|]. rewrite Hn1. exact Htr1.
Qed.

(** C2. A render tick on a well-formed sketch with linked uniforms returns,
    and afterwards the plane material's [time] uniform equals the sketch's
    advanced [time], and its [uPointerTrail] uniform is the sketch's own
    trail array, so that it reads as the advanced trail buffer. *)
Theorem render_feeds_uniforms s :
  wf s -> feed_linked s ->
  exists s' u,
    render s = Some s' /\
    planeMesh s' = Some u /\
    time s' = (time s + num_0_01)%num /\
    Uniforms.time u = time s' /\
    Uniforms.uPointerTrail u = pointerTrail s' /\
    readArray (Uniforms.uPointerTrail u) (heap s') = trail_values s' /\
    forall old p, trail_values s = Some old -> pointer_value s = Some p ->
      readArray (Uniforms.uPointerTrail u) (heap s') =
        Some (p :: take (trailLength s - 1) old).
Proof.
  intros Hwf Hfeed.
  destruct (wf_values s Hwf) as (old & p & Hold & Hp & Hlen).
  assert (Hu : exists u, planeMesh s = Some u).
  { unfold feed_linked in Hfeed. destruct (planeMesh s); [by eexists|done]. }
  destruct Hu as [u Hu].
  destruct (render_spec s u old p Hwf Hfeed Hu Hold Hp)
    as (h' & r & Hr & Hnew & Hp' & Hr' & Harr & Hrun & Hwf' & Hfeed').
  eexists. eexists. split; [exact Hrun|].
  cbn [planeMesh time pointerTrail heap]. split; [reflexivity|].
  cbn [Uniforms.time Uniforms.uPointerTrail]. split_and!; try reflexivity.
  intros old' p'. rewrite Hold, Hp. intros [= <-] [= <-]. exact Hnew.
Qed.

(** C6. A render tick on a well-formed sketch with linked uniforms, whose
    trail holds [old] and whose current pointer is [p]: the clock is advanced
    by 0.01, then the trail is advanced to [p] followed by the first N-1
    values of [old], then the advanced time is written to the [time] uniform,
    then the camera controls are updated, then the renderer is called, once,
    and it draws the advanced time and the advanced trail, then the next
    frame is requested; the two calls of the statistics panel bracket these
    steps when the panel exists.  Afterwards the sketch holds the advanced
    time and the advanced trail, and the uniform holds the advanced time. *)
Theorem render_order s old p :
  wf s -> feed_linked s ->
  trail_values s = Some old -> pointer_value s = Some p ->
  exists s' r u,
    render s = Some s' /\
    trace s' =
      trace s ++
      tick_trace (stats s) (time s + num_0_01)%num r
        (p :: take (trailLength s - 1) old) /\
    List.filter is_tick_step
        (tick_trace (stats s) (time s + num_0_01)%num r
           (p :: take (trailLength s - 1) old)) =
      [TimeAdvanced (time s + num_0_01)%num; PointerTrailUpdated;
       UniformTimeWritten (time s + num_0_01)%num; ControlsUpdate;
       RendererRender (time s + num_0_01)%num r
         (p :: take (trailLength s - 1) old);
       RequestAnimationFrame] /\
    length (List.filter is_render_call
              (tick_trace (stats s) (time s + num_0_01)%num r
                 (p :: take (trailLength s - 1) old))) = 1%nat /\
    time s' = (time s + num_0_01)%num /\
    trail_values s' = Some (p :: take (trailLength s - 1) old) /\
    pointer_value s' = Some p /\
    planeMesh s' = Some u /\
    Uniforms.time u = (time s + num_0_01)%num /\
    readArray (Uniforms.uPointerTrail u) (heap s') =
      Some (p :: take (trailLength s - 1) old) /\
    resolution_value s = Some r /\
    resolution_value s' = Some r /\
    frames_requested s' = S (frames_requested s).
Proof.
  intros Hwf Hfeed Hold Hp.
  assert (Hu : exists u, planeMesh s = Some u).
  { unfold feed_linked in Hfeed. destruct (planeMesh s); [by eexists|done]. }
  destruct Hu as [u Hu].
  destruct (render_spec s u old p Hwf Hfeed Hu Hold Hp)
    as (h' & r & Hr & Hnew & Hp' & Hr' & Harr & Hrun & Hwf' & Hfeed').
  eexists. exists r. eexists.
  split; [exact Hrun|].
  cbn [trace time frames_requested planeMesh heap]. split_and!; try reflexivity.
  - by destruct (stats s).
  - by destruct (stats s).
  - exact Hnew.
  - exact Hp'.
  - cbn [Uniforms.uPointerTrail]. exact Hnew.
  - exact Hr.
  - unfold resolution_value.
    cbn [planeMesh heap mbind option_bind Uniforms.uResolution]. exact Hr'.
Qed.


(** C8. [onResize] sets the camera's aspect to the new width over the new
    height and the renderer's size to the new width and height; [time], the
    store (hence every trail slot and the current pointer) and the uniforms
    are as before. *)
Theorem onResize_effect (innerWidth innerHeight : num) s :
  camera_aspect (onResize innerWidth innerHeight s) =
    (innerWidth / innerHeight)%num /\
  renderer_size (onResize innerWidth innerHeight s) =
    (innerWidth, innerHeight) /\
  trace (onResize innerWidth innerHeight s) =
    trace s ++
    [CameraUpdateProjectionMatrix; RendererSetSize innerWidth innerHeight] /\
  time (onResize innerWidth innerHeight s) = time s /\
  heap (onResize innerWidth innerHeight s) = heap s /\
  trail_values (onResize innerWidth innerHeight s) = trail_values s /\
  pointer_value (onResize innerWidth innerHeight s) = pointer_value s /\
  planeMesh (onResize innerWidth innerHeight s) = planeMesh s.
Proof.
  split_and!; try reflexivity.
  unfold onResize.
  cbn [trace emit set_renderer_size set_camera_aspect set_device device
       Device.width Device.height].
  by rewrite <- app_assoc.
Qed.

(** C10. [uResolution] does not exist before [addGeometry]; [addGeometry]
    writes the device size of that moment into it; it holds that value when
    the constructor returns, after any sequence of events, and after a
    further resize, which does change the device record, the camera's aspect
    and the renderer's size. *)
Theorem uResolution_written_once (dev : Device.t num)
    (es : list (Event num)) (innerWidth innerHeight : num) :
  exists s0 s1,
    resolution_value (constructor_fields dev) = None /\
    resolution_value (addGeometry (initStats (constructor_fields dev))) =
      Some (Vector2.make (Device.width dev) (Device.height dev)) /\
    constructor dev = Some s0 /\
    resolution_value s0 =
      Some (Vector2.make (Device.width dev) (Device.height dev)) /\
    run es s0 = Some s1 /\
    resolution_value s1 =
      Some (Vector2.make (Device.width dev) (Device.height dev)) /\
    resolution_value (onResize innerWidth innerHeight s1) =
      Some (Vector2.make (Device.width dev) (Device.height dev)) /\
    Device.width (device (onResize innerWidth innerHeight s1)) = innerWidth /\
    Device.height (device (onResize innerWidth innerHeight s1)) =
      innerHeight /\
    camera_aspect (onResize innerWidth innerHeight s1) =
      (innerWidth / innerHeight)%num /\
    renderer_size (onResize innerWidth innerHeight s1) =
      (innerWidth, innerHeight).
Proof.
  destruct (constructor_spec dev)
    as (s0 & Hc & Hrun0 & _ & _ & _ & _ & Hres0 & _).
  destruct (run_running es s0 Hrun0) as (s1 & Hr & _ & _ & Hres1 & _).
  exists s0, s1. split_and!.
  - by vm_compute.
  - by vm_compute.
  - exact Hc.
  - exact Hres0.
  - exact Hr.
  - by rewrite Hres1.
  - change (resolution_value (onResize innerWidth innerHeight s1))
      with (resolution_value s1). by rewrite Hres1.
  - reflexivity.
  - reflexivity.
  - reflexivity.
  - reflexivity.
Qed.

End Claims.

(** * Binary64 arithmetic *)

Section Binary64.

#[local] Open Scope Z_scope.

(** ** Rounding to nearest *)

Lemma digits2_pos_bounds p :
  2 ^ (Zpos (digits2_pos p) - 1) <= Zpos p < 2 ^ Zpos (digits2_pos p).
Proof.
  induction p as [p IH|p IH|]; cbn [digits2_pos].
  - rewrite Pos2Z.inj_succ. replace (Z.succ (Zpos (digits2_pos p)) - 1)
      with (Z.succ (Zpos (digits2_pos p) - 1)) by lia.
    rewrite !Z.pow_succ_r by lia. lia.
  - rewrite Pos2Z.inj_succ. replace (Z.succ (Zpos (digits2_pos p)) - 1)
      with (Z.succ (Zpos (digits2_pos p) - 1)) by lia.
    rewrite !Z.pow_succ_r by lia. lia.
  - cbn. lia.
Qed.

Lemma digits2_pos_unique p d :
  2 ^ (d - 1) <= Zpos p < 2 ^ d -> Zpos (digits2_pos p) = d.
Proof.
  intros [Hl Hu]. pose proof (digits2_pos_bounds p) as [Hl' Hu'].
  destruct (Z.lt_trichotomy (Zpos (digits2_pos p)) d) as [Hlt|[Heq|Hgt]].
  - assert (2 ^ Zpos (digits2_pos p) <= 2 ^ (d - 1))
      by (apply Z.pow_le_mono_r; lia). lia.
  - exact Heq.
  - assert (d <= 0 \/ 0 < d) as [Hd|Hd] by lia.
    + assert (2 ^ d <= 1).
      { destruct (Z.eq_dec d 0) as [->|]; [cbn; lia|].
        rewrite Z.pow_neg_r by lia. lia. }
      lia.
    + assert (2 ^ d <= 2 ^ (Zpos (digits2_pos p) - 1))
        by (apply Z.pow_le_mono_r; lia). lia.
Qed.

Lemma iter_pos_iter {A} (f : A -> A) p : forall x,
  SpecFloat.iter_pos f p x = Pos.iter f x p.
Proof.
  induction p as [p IH|p IH|]; intros x; cbn [SpecFloat.iter_pos Pos.iter].
  - rewrite !IH. by rewrite !Pos.iter_swap.
  - by rewrite !IH.
  - reflexivity.
Qed.

Lemma iter_xO_pow m d : Zpos (Pos.iter xO m d) = Zpos m * 2 ^ Zpos d.
Proof.
  induction d as [|d IH] using Pos.peano_ind.
  - cbn. lia.
  - rewrite Pos.iter_succ, Pos2Z.inj_succ, Z.pow_succ_r by lia.
    rewrite Pos2Z.inj_xO, IH. lia.
Qed.

Lemma shr_inv_0 M : 0 <= M -> shr_inv M 0 (Build_shr_record M false false).
Proof.
  intros HM. exists 0. cbn [shr_m shr_r shr_s].
  change (2 ^ (0 + 1)) with 2. change (2 ^ 0) with 1.
  split_and!; try lia; split; intros; try lia; congruence.
Qed.

Lemma shr_inv_step M n mrs :
  0 <= n -> shr_inv M n mrs -> shr_inv M (n + 1) (shr_1 mrs).
Proof.
  intros Hn (D & HM & HD & Hm & Hr & Hs).
  assert (HP : 0 < 2 ^ n) by (apply Z.pow_pos_nonneg; lia).
  assert (HP1 : 2 ^ (n + 1) = 2 * 2 ^ n) by (rewrite Z.pow_add_r; lia).
  assert (HP2 : 2 ^ (n + 1 + 1) = 4 * 2 ^ n)
    by (rewrite !Z.pow_add_r by lia; lia).
  rewrite HP1 in *. 
  destruct mrs as [m r s]. cbn [shr_m shr_r shr_s] in *.
  unfold shr_inv. rewrite HP2, HP1.
  set (P := 2 ^ n) in *. clearbody P.
  destruct m as [|[p|p|]|p]; cbn [shr_1 shr_m shr_r shr_s]; try lia.
  - exists D. destruct r, s; cbn [orb]; split_and!; try lia;
      (split; [intros ?|intros ?]); try congruence; try lia; tauto.
  - exists (D + 2 * P). rewrite Pos2Z.inj_xI in HM.
    destruct r, s; cbn [orb]; split_and!; try lia;
      (split; [intros ?|intros ?]); try congruence; try lia; intuition lia.
  - exists D. rewrite Pos2Z.inj_xO in HM.
    destruct r, s; cbn [orb]; split_and!; try lia;
      (split; [intros ?|intros ?]); try congruence; try lia; intuition lia.
  - exists (D + 2 * P).
    destruct r, s; cbn [orb]; split_and!; try lia;
      (split; [intros ?|intros ?]); try congruence; try lia; intuition lia.
Qed.

Lemma shr_inv_iter M p : forall n mrs,
  0 <= n -> shr_inv M n mrs ->
  shr_inv M (n + Zpos p) (SpecFloat.iter_pos shr_1 p mrs).
Proof.
  intros n mrs Hn Hinv. rewrite iter_pos_iter.
  induction p as [|p IH] using Pos.peano_ind.
  - cbn [Pos.iter]. by apply shr_inv_step.
  - rewrite Pos.iter_succ, Pos2Z.inj_succ.
    replace (n + Z.succ (Zpos p)) with (n + Zpos p + 1) by lia.
    apply shr_inv_step; [lia|exact IH].
Qed.

(** Rounding to nearest after the shift: the result is the quotient or the
    next integer, and is within half a unit of the shifted number. *)
Lemma round_nearest_even_inv M n mrs :
  0 <= n -> shr_inv M n mrs ->
  shr_m mrs <=
    round_nearest_even (shr_m mrs) (loc_of_shr_record mrs) <= shr_m mrs + 1 /\
  2 ^ n * shr_m mrs <= M < 2 ^ n * (shr_m mrs + 1) /\
  Z.abs (2 * (2 ^ n * round_nearest_even (shr_m mrs) (loc_of_shr_record mrs)
              - M)) <= 2 ^ n.
Proof.
  intros Hn (D & HM & HD & Hm & Hr & Hs).
  assert (HP : 0 < 2 ^ n) by (apply Z.pow_pos_nonneg; lia).
  assert (HP1 : 2 ^ (n + 1) = 2 * 2 ^ n) by (rewrite Z.pow_add_r; lia).
  rewrite HP1 in *. set (P := 2 ^ n) in *. clearbody P.
  destruct mrs as [m r s]. cbn [shr_m shr_r shr_s] in *.
  destruct r, s; cbn [loc_of_shr_record round_nearest_even].
  - assert (P <= D) by (by apply Hr). assert (D <> P) by (by apply Hs). nia.
  - assert (P <= D) by (by apply Hr).
    assert (D = P).
    { destruct (Z.eq_dec D P) as [|Hne]; [done|]. by apply Hs in Hne. }
    destruct (Z.even m); nia.
  - assert (D < P).
    { destruct (Z.lt_ge_cases D P) as [|Hge]; [done|]. by apply Hr in Hge. }
    nia.
  - assert (D = 0).
    { destruct (Z.eq_dec D 0) as [|Hne]; [done|]. by apply Hs in Hne. }
    nia.
Qed.

Lemma binary_round_aux_finish sx mx ex lx :
  binary_round_aux prec emax sx mx ex lx =
  round_finish sx
    (round_nearest_even (shr_m (shr_fexp prec emax mx ex lx).1)
       (loc_of_shr_record (shr_fexp prec emax mx ex lx).1))
    (shr_fexp prec emax mx ex lx).2.
Proof.
  unfold binary_round_aux, round_finish.
  by destruct (shr_fexp prec emax mx ex lx).
Qed.

Lemma fexp_normal x : -1074 <= x - 53 -> fexp prec emax x = x - 53.
Proof. intros Hx. unfold fexp, emin, prec, emax. lia. Qed.

Lemma round_finish_normal sx q e :
  2 ^ 52 <= Zpos q <= 2 ^ 53 -> -1074 <= e -> e < 971 ->
  exists m' e',
    round_finish sx (Zpos q) e = S754_finite sx m' e' /\
    e <= e' <= e + 1 /\ 2 ^ 52 <= Zpos m' < 2 ^ 53 /\
    Zpos m' * 2 ^ (e' - e) = Zpos q.
Proof.
  intros [Hl Hu] He He'.
  change (2 ^ 52) with 4503599627370496 in *.
  change (2 ^ 53) with 9007199254740992 in *.
  destruct (Pos.eq_dec q 9007199254740992%positive) as [->|Hne].
  - clear Hl Hu. exists 4503599627370496%positive, (e + 1).
    unfold round_finish, shr_fexp.
    change (Zdigits2 9007199254740992) with 54.
    rewrite fexp_normal by lia.
    replace (54 + e - 53 - e) with 1 by lia.
    cbn [shr shr_record_of_loc SpecFloat.iter_pos shr_1 shr_m].
    replace (e + 1 <=? emax - prec) with true
      by (symmetry; apply Z.leb_le; unfold emax, prec; lia).
    split; [reflexivity|]. split; [lia|].
    split; [lia|].
    replace (e + 1 - e) with 1 by lia. reflexivity.
  - exists q, e. unfold round_finish, shr_fexp. cbn [Zdigits2].
    rewrite (digits2_pos_unique q 53)
      by (change (2 ^ (53 - 1)) with 4503599627370496;
          change (2 ^ 53) with 9007199254740992; lia).
    rewrite fexp_normal by lia. replace (53 + e - 53 - e) with 0 by lia.
    cbn [shr shr_record_of_loc shr_m].
    replace (e <=? emax - prec) with true
      by (symmetry; apply Z.leb_le; unfold emax, prec; lia).
    split; [reflexivity|]. split; [lia|]. split; [lia|].
    replace (e - e) with 0 by lia. cbn. lia.
Qed.

(** Rounding a positive integer [N] of at least 53 digits, scaled by
    [2 ^ ez], in the normal range: the result is finite, its mantissa has 53
    digits, and it is a multiple [m2] of the unit [2 ^ (d - 53)] of [N] that
    lies within half a unit of [N]. *)
Lemma binary_round_aux_normal sx N ez :
  53 <= Zpos (digits2_pos N) ->
  -1074 <= Zpos (digits2_pos N) + ez - 53 < 971 ->
  exists m' e' m2,
    binary_round_aux prec emax sx (Zpos N) ez loc_Exact =
      S754_finite sx m' e' /\
    Zpos (digits2_pos N) + ez - 53 <= e' <= Zpos (digits2_pos N) + ez - 52 /\
    2 ^ 52 <= Zpos m' < 2 ^ 53 /\
    Zpos m' * 2 ^ (e' - (Zpos (digits2_pos N) + ez - 53)) = m2 /\
    Z.abs (2 * (2 ^ (Zpos (digits2_pos N) - 53) * m2 - Zpos N)) <=
      2 ^ (Zpos (digits2_pos N) - 53).
Proof.
  pose proof (digits2_pos_bounds N) as HN. revert HN.
  set (d := Zpos (digits2_pos N)). intros [HNl HNu] Hd He.
  rewrite binary_round_aux_finish. unfold shr_fexp. cbn [Zdigits2]. fold d.
  rewrite fexp_normal by lia.
  replace (d + ez - 53 - ez) with (d - 53) by lia.
  destruct (d - 53) as [|p|p] eqn:Hn; [| |lia].
  - cbn [shr fst snd shr_record_of_loc shr_m loc_of_shr_record
         round_nearest_even].
    assert (Hd53 : d = 53) by lia. rewrite Hd53 in HNl, HNu.
    change (2 ^ (53 - 1)) with (2 ^ 52) in HNl.
    destruct (round_finish_normal sx N ez) as (m' & e' & Hf & He' & Hm' & Hv);
      [lia|lia|lia|].
    exists m', e', (Zpos N). split; [exact Hf|]. split; [lia|].
    split; [exact Hm'|]. split.
    + replace (d + ez - 53) with ez by lia. exact Hv.
    + change (2 ^ 0) with 1. lia.
  - cbn [shr fst snd shr_record_of_loc].
    pose proof (shr_inv_iter (Zpos N) p 0 _ ltac:(lia)
                  (shr_inv_0 (Zpos N) ltac:(lia))) as Hinv.
    change (0 + Zpos p) with (Zpos p) in Hinv.
    set (mrs := SpecFloat.iter_pos shr_1 p _) in *. clearbody mrs.
    destruct (round_nearest_even_inv (Zpos N) (Zpos p) mrs ltac:(lia) Hinv)
      as (Hm2 & Hfl & Habs).
    set (m2 := round_nearest_even _ _) in *. clearbody m2.
    assert (HP : 0 < 2 ^ Zpos p) by (apply Z.pow_pos_nonneg; lia).
    assert (Hd1 : 2 ^ (d - 1) = 2 ^ Zpos p * 2 ^ 52).
    { rewrite <- Z.pow_add_r by lia. f_equal. lia. }
    assert (Hd2 : 2 ^ d = 2 ^ Zpos p * 2 ^ 53).
    { rewrite <- Z.pow_add_r by lia. f_equal. lia. }
    rewrite Hd1 in HNl. rewrite Hd2 in HNu.
    assert (Hm : 2 ^ 52 <= shr_m mrs < 2 ^ 53) by nia.
    destruct m2 as [|q|q]; [lia| |lia].
    destruct (round_finish_normal sx q (ez + Zpos p))
      as (m' & e' & Hf & He' & Hm' & Hv); [lia|lia|lia|].
    exists m', e', (Zpos q). split; [exact Hf|]. split; [lia|].
    split; [exact Hm'|]. split.
    + replace (d + ez - 53) with (ez + Zpos p) by lia. exact Hv.
    + exact Habs.
Qed.

Lemma shl_align_value m e ez :
  ez <= e -> Zpos (shl_align m e ez).1 = Zpos m * 2 ^ (e - ez).
Proof.
  intros Hle. unfold shl_align.
  destruct (ez - e) as [|d|d] eqn:Hd; cbn [fst]; [|lia|].
  - replace (e - ez) with 0 by lia. change (2 ^ 0) with 1. lia.
  - rewrite iter_xO_pow. f_equal. f_equal. lia.
Qed.

(** A valid mantissa above the subnormal range has 53 digits. *)
Lemma bounded_normal m e :
  bounded prec emax m e = true -> -1074 < e ->
  2 ^ 52 <= Zpos m < 2 ^ 53.
Proof.
  unfold bounded, canonical_mantissa, fexp, emin, prec, emax.
  intros Hb He. apply andb_prop in Hb as [Hc _]. apply Z.eqb_eq in Hc.
  pose proof (digits2_pos_bounds m) as Hm.
  replace (Zpos (digits2_pos m)) with 53 in Hm by lia. exact Hm.
Qed.

(** One addition of 0.01 to a finite positive [m * 2 ^ e], [e >= -59], of
    value at most [2 ^ 48]: in units of [2 ^ -59] the sum [V'] is not below
    [V], not above [2 ^ 48], and within [2 ^ -53 * V'] of [V + 0.01]. *)
Lemma SFadd_tick m e :
  bounded prec emax m e = true -> -59 <= e ->
  Zpos m * 2 ^ (e + 59) <= 2 ^ 107 ->
  exists m' e',
    SFadd prec emax (S754_finite false m e)
      (S754_finite false tick_mantissa (-59)) =
      S754_finite false m' e' /\
    -59 <= e' /\
    Zpos m * 2 ^ (e + 59) <= Zpos m' * 2 ^ (e' + 59) <= 2 ^ 107 /\
    2 ^ 53 * Z.abs (Zpos m' * 2 ^ (e' + 59) -
                    (Zpos m * 2 ^ (e + 59) + Zpos tick_mantissa)) <=
      Zpos m' * 2 ^ (e' + 59).
Proof.
  intros Hb He HV.
  pose proof (bounded_normal m e Hb ltac:(lia)) as Hm.
  unfold SFadd. rewrite Z.min_r by lia.
  pose proof (shl_align_value m e (-59) He) as Ha.
  replace (e - -59) with (e + 59) in Ha by lia.
  destruct (shl_align m e (-59)) as [a ?]. cbn [fst] in Ha.
  change (shl_align tick_mantissa (-59) (-59)) with (tick_mantissa, -59).
  cbn [fst cond_Zopp]. rewrite <- Ha in HV. rewrite <- Ha.
  change (Zpos a + Zpos tick_mantissa) with (Zpos (a + tick_mantissa)).
  cbn [binary_normalize]. unfold binary_round.
  set (N := (a + tick_mantissa)%positive).
  assert (HN : Zpos N = Zpos a + Zpos tick_mantissa) by reflexivity.
  clearbody N.
  pose proof (digits2_pos_bounds N) as Hdig.
  set (d := Zpos (digits2_pos N)) in *.
  assert (HA : 0 < 2 ^ (e + 59)) by (apply Z.pow_pos_nonneg; lia).
  assert (Hd53 : 53 <= d).
  { destruct (Z.le_gt_cases 53 d) as [|Hlt]; [done|].
    assert (2 ^ d <= 2 ^ 52) by (apply Z.pow_le_mono_r; lia).
    change (2 ^ 52) with 4503599627370496 in *.
    unfold tick_mantissa in HN. lia. }
  assert (Hd108 : d <= 108).
  { destruct (Z.le_gt_cases d 108) as [|Hgt]; [done|].
    assert (2 ^ 108 <= 2 ^ (d - 1)) by (apply Z.pow_le_mono_r; lia).
    change (2 ^ 108) with 324518553658426726783156020576256 in *.
    change (2 ^ 107) with 162259276829213363391578010288128 in *.
    unfold tick_mantissa in HN. lia. }
  rewrite fexp_normal by lia.
  assert (Hsh : shl_align N (-59) (d + -59 - 53) = (N, -59)).
  { unfold shl_align. destruct (d + -59 - 53 - -59) eqn:?; [done|done|lia]. }
  rewrite Hsh.
  destruct (binary_round_aux_normal false N (-59))
    as (m' & e' & m2 & Hr & He' & Hm' & Hm2 & Habs); [done|lia|].
  fold d in He', Hm2, Habs.
  exists m', e'. split; [exact Hr|]. split; [lia|].
  assert (HU : 0 < 2 ^ (d - 53)) by (apply Z.pow_pos_nonneg; lia).
  assert (HV' : Zpos m' * 2 ^ (e' + 59) = m2 * 2 ^ (d - 53)).
  { rewrite <- Hm2, <- Z.mul_assoc, <- Z.pow_add_r by lia.
    f_equal. f_equal. lia. }
  assert (Hm2' : Zpos m' <= m2).
  { rewrite <- Hm2.
    assert (0 < 2 ^ (e' - (d + -59 - 53))) by (apply Z.pow_pos_nonneg; lia).
    nia. }
  rewrite HV'.
  (* the unit of the sum is the unit of [m], or more *)
  assert (Hed : e + 112 <= d).
  { destruct (Z.le_gt_cases (e + 112) d) as [|Hlt]; [done|].
    assert (2 ^ d <= 2 ^ (e + 59 + 52)) by (apply Z.pow_le_mono_r; lia).
    assert (2 ^ (e + 59 + 52) = 2 ^ (e + 59) * 2 ^ 52)
      by (rewrite Z.pow_add_r; lia).
    nia. }
  assert (HJ : 2 ^ (d - 53) = 2 ^ (e + 59) * 2 ^ (d - 112 - e)).
  { rewrite <- Z.pow_add_r by lia. f_equal. lia. }
  assert (Hd2 : 2 ^ d = 2 ^ 53 * 2 ^ (d - 53)).
  { rewrite <- Z.pow_add_r by lia. f_equal. lia. }
  set (U := 2 ^ (d - 53)) in *. set (A := 2 ^ (e + 59)) in *.
  change (2 ^ 52) with 4503599627370496 in *.
  change (2 ^ 53) with 9007199254740992 in *.
  assert (H52 : 4503599627370496 * U <= m2 * U)
    by (apply Z.mul_le_mono_nonneg_r; lia).
  unfold tick_mantissa in HN.
  split; [split|].
  - destruct (Z.eq_dec (d - 112 - e) 0) as [Hj|Hj].
    + rewrite Hj in HJ. change (2 ^ 0) with 1 in HJ.
      assert (HUA : U = A) by lia.
      destruct (Z.le_gt_cases (Zpos m) m2) as [Hle|Hlt].
      * rewrite Ha, HUA. apply Z.mul_le_mono_nonneg_r; lia.
      * assert ((m2 + 1) * U <= Zpos m * U)
          by (apply Z.mul_le_mono_nonneg_r; lia).
        lia.
    + assert (HJ2 : 2 ^ 1 <= 2 ^ (d - 112 - e))
        by (apply Z.pow_le_mono_r; lia).
      change (2 ^ 1) with 2 in HJ2.
      assert (A * 2 <= A * 2 ^ (d - 112 - e))
        by (apply Z.mul_le_mono_nonneg_l; lia).
      assert (Zpos m * A <= 9007199254740992 * A)
        by (apply Z.mul_le_mono_nonneg_r; lia).
      lia.
  - destruct (Z.eq_dec d 108) as [Hd|Hd].
    + assert (HU108 : U = 2 ^ 55) by (unfold U; by rewrite Hd).
      change (2 ^ 107) with 162259276829213363391578010288128 in *.
      change (2 ^ 55) with 36028797018963968 in *.
      rewrite HU108 in Habs |- *. lia.
    + assert (2 ^ d <= 2 ^ 107) by (apply Z.pow_le_mono_r; lia).
      assert (m2 <= 9007199254740992).
      { destruct (Z.le_gt_cases m2 9007199254740992) as [|Hgt]; [done|].
        assert ((9007199254740992 + 1) * U <= m2 * U)
          by (apply Z.mul_le_mono_nonneg_r; lia).
        lia. }
      assert (m2 * U <= 9007199254740992 * U)
        by (apply Z.mul_le_mono_nonneg_r; lia).
      lia.
  - lia.
Qed.

(** *** Classes of binary64 numbers *)



(** *** Exact cases of the four operations *)













(** *** The frame clock *)

Lemma advance_time_S k : forall t : float,
  advance_time (S k) t = (advance_time k t + 0.01)%float.
Proof.
  induction k as [|k IH]; intros t; [reflexivity|].
  change (advance_time (S (S k)) t) with (advance_time (S k) (t + 0.01)%float).
  rewrite IH. reflexivity.
Qed.

(** Two positive normal numbers compare as their values do. *)
Lemma SFleb_scaled m e m' e' :
  2 ^ 52 <= Zpos m < 2 ^ 53 -> 2 ^ 52 <= Zpos m' < 2 ^ 53 ->
  -59 <= e -> -59 <= e' ->
  Zpos m * 2 ^ (e + 59) <= Zpos m' * 2 ^ (e' + 59) ->
  SFleb (S754_finite false m e) (S754_finite false m' e') = true.
Proof.
  intros Hm Hm' He He' Hle. unfold SFleb, SFcompare.
  assert (HA : 0 < 2 ^ (e' + 59)) by (apply Z.pow_pos_nonneg; lia).
  destruct (Z.compare_spec e e') as [->|Hlt|Hgt]; [|done|].
  - change (Pos.compare_cont Eq m m') with (Zpos m ?= Zpos m').
    destruct (Z.compare_spec (Zpos m) (Zpos m')) as [|?|Hgt]; [done|done|].
    assert (Zpos m' * 2 ^ (e' + 59) < Zpos m * 2 ^ (e' + 59))
      by (apply Z.mul_lt_mono_pos_r; lia).
    lia.
  - assert (HB : 2 ^ (e + 59) = 2 ^ (e' + 59) * 2 ^ (e - e')).
    { rewrite <- Z.pow_add_r by lia. f_equal. lia. }
    assert (HJ : 2 ^ 1 <= 2 ^ (e - e')) by (apply Z.pow_le_mono_r; lia).
    change (2 ^ 1) with 2 in HJ.
    change (2 ^ 52) with 4503599627370496 in *.
    change (2 ^ 53) with 9007199254740992 in *.
    assert (2 ^ (e' + 59) * 2 <= 2 ^ (e + 59))
      by (rewrite HB; apply Z.mul_le_mono_nonneg_l; lia).
    assert (4503599627370496 * 2 ^ (e + 59) <= Zpos m * 2 ^ (e + 59))
      by (apply Z.mul_le_mono_nonneg_r; lia).
    assert (Zpos m' * 2 ^ (e' + 59) <= 9007199254740991 * 2 ^ (e' + 59))
      by (apply Z.mul_le_mono_nonneg_r; lia).
    lia.
Qed.

(** One tick of the clock from a time [t] between 0.01 and [2 ^ 48]. *)
Lemma tick_step (t : float) m e :
  Prim2SF t = S754_finite false m e -> -59 <= e ->
  Zpos m * 2 ^ (e + 59) <= 2 ^ 107 ->
  exists m' e',
    Prim2SF (t + 0.01)%float = S754_finite false m' e' /\
    -59 <= e' /\
    Zpos m * 2 ^ (e + 59) <= Zpos m' * 2 ^ (e' + 59) <= 2 ^ 107 /\
    2 ^ 53 * Z.abs (Zpos m' * 2 ^ (e' + 59) -
                    (Zpos m * 2 ^ (e + 59) + Zpos tick_mantissa)) <=
      Zpos m' * 2 ^ (e' + 59) /\
    (t <=? t + 0.01)%float = true.
Proof.
  intros Ht He HV.
  pose proof (Prim2SF_valid t) as Hv. rewrite Ht in Hv.
  cbn [SpecFloat.valid_binary] in Hv.
  destruct (SFadd_tick m e Hv He HV) as (m' & e' & Hadd & He' & Hle & Herr).
  assert (Hsum : Prim2SF (t + 0.01)%float = S754_finite false m' e').
  { rewrite add_spec, Ht.
    change (Prim2SF 0.01) with (S754_finite false tick_mantissa (-59)).
    exact Hadd. }
  exists m', e'. split; [exact Hsum|]. split; [exact He'|].
  split; [exact Hle|]. split; [exact Herr|].
  pose proof (Prim2SF_valid (t + 0.01)%float) as Hv'. rewrite Hsum in Hv'.
  cbn [SpecFloat.valid_binary] in Hv'.
  rewrite leb_spec, Ht, Hsum.
  apply SFleb_scaled; [by apply (bounded_normal m e); [|lia]
                      |by apply (bounded_normal m' e'); [|lia]
                      |done|done|lia].
Qed.

(** The clock after [k >= 1] ticks from 0, in units of [2 ^ -59]: its value
    [V] lies between 0.01 and [2 ^ 48], and within [k * 2 ^ -53 * V] of [k]
    times the binary64 value of 0.01. *)
Lemma advance_time_scaled k :
  exists m e,
    Prim2SF (advance_time (S k) 0%float) = S754_finite false m e /\
    -59 <= e /\
    Zpos tick_mantissa <= Zpos m * 2 ^ (e + 59) <= 2 ^ 107 /\
    2 ^ 53 * Z.abs (Zpos m * 2 ^ (e + 59) -
                    Z.of_nat (S k) * Zpos tick_mantissa) <=
      Z.of_nat (S k) * (Zpos m * 2 ^ (e + 59)).
Proof.
  induction k as [|k (m & e & Ht & He & HV & Herr)].
  - exists tick_mantissa, (-59).
    split; [reflexivity|]. split; [lia|]. split; [by vm_compute|].
    by vm_compute.
  - destruct (tick_step _ m e Ht He ltac:(lia))
      as (m' & e' & Ht' & He' & Hle & Herr' & _).
    exists m', e'. rewrite advance_time_S. split; [exact Ht'|].
    split; [exact He'|]. split; [lia|].
    set (V := Zpos m * 2 ^ (e + 59)) in *.
    set (V' := Zpos m' * 2 ^ (e' + 59)) in *.
    assert (Z.of_nat (S k) * V <= Z.of_nat (S k) * V')
      by (apply Z.mul_le_mono_nonneg_l; lia).
    rewrite (Nat2Z.inj_succ (S k)). lia.
Qed.

(** The clock never goes back. *)
Lemma advance_time_mono k :
  (advance_time k 0 <=? advance_time (S k) 0%float)%float = true.
Proof.
  destruct k as [|k]; [reflexivity|].
  destruct (advance_time_scaled k) as (m & e & Ht & He & HV & _).
  rewrite (advance_time_S (S k)).
  by destruct (tick_step _ m e Ht He ltac:(lia)) as (? & ? & _ & _ & _ & _ & ?).
Qed.

Lemma advance_time_refl k :
  (advance_time (S k) 0 <=? advance_time (S k) 0%float)%float = true.
Proof.
  destruct (advance_time_scaled k) as (m & e & Ht & He & HV & _).
  pose proof (Prim2SF_valid (advance_time (S k) 0%float)) as Hv.
  rewrite Ht in Hv. cbn [SpecFloat.valid_binary] in Hv.
  rewrite leb_spec, Ht.
  pose proof (bounded_normal m e Hv ltac:(lia)) as Hm.
  by apply SFleb_scaled.
Qed.

(** *** Binary64 numbers as rationals *)

Lemma Qpower_2_scaled (e : Z) :
  -59 <= e -> (2 ^ e == inject_Z (2 ^ (e + 59)) * (1 # 576460752303423488))%Q.
Proof.
  intros He. replace e with ((e + 59) + -59) at 1 by lia.
  rewrite Qpower_plus by done.
  rewrite (Zpower_Qpower 2 (e + 59)) by lia. reflexivity.
Qed.

Lemma SF2Q_scaled m e :
  -59 <= e ->
  (1 * inject_Z (Zpos m) * 2 ^ e ==
   inject_Z (Zpos m * 2 ^ (e + 59)) * (1 # 576460752303423488))%Q.
Proof.
  intros He. rewrite Qpower_2_scaled by done. rewrite inject_Z_mult. ring.
Qed.

(** After [k] ticks from 0 the clock is within [k * 2 ^ -52] of [k / 100],
    relative to its own value, and not above [2 ^ 48]. *)
Lemma advance_time_tolerance k :
  exists q,
    float_value (advance_time k 0%float) = Some q /\
    (Qabs (q - inject_Z (Z.of_nat k) * (1 # 100)) <=
     inject_Z (Z.of_nat k) * (1 # 4503599627370496) * q)%Q /\
    (q <= inject_Z (2 ^ 48))%Q.
Proof.
  destruct k as [|k].
  { exists 0%Q. split; [reflexivity|]. split; by vm_compute. }
  destruct (advance_time_scaled k) as (m & e & Ht & He & [HC HV] & Herr).
  unfold float_value. rewrite Ht. cbn [SF2Q]. eexists. split; [reflexivity|].
  rewrite !SF2Q_scaled by done.
  set (V := Zpos m * 2 ^ (e + 59)) in *. clearbody V.
  set (n := Z.of_nat (S k)) in *.
  assert (Hn : 0 <= n) by lia. clearbody n.
  assert (HnV : n * Zpos tick_mantissa <= n * V)
    by (apply Z.mul_le_mono_nonneg_l; lia).
  unfold tick_mantissa in *.
  change (2 ^ 53) with 9007199254740992 in Herr.
  change (2 ^ 107) with 162259276829213363391578010288128 in HV.
  change (2 ^ 48) with 281474976710656.
  split.
  - apply Qabs_Qle_condition.
    cbv beta iota delta [Qle Qopp Qminus Qplus Qmult inject_Z Qnum Qden].
    split; lia.
  - cbv beta iota delta [Qle Qmult inject_Z Qnum Qden]. lia.
Qed.

(** *** The two expressions of the listener at the corners and the centre *)










(** C5. The frame clock in binary64.  [time] is 0 when the fields are
    initialised.  [k] ticks from there bring it to the [k]-fold sum of the
    binary64 number 0.01; for every [k] that sum is a finite number [q], it
    is within [k * 2 ^ -52], relative to itself, of [k / 100], and it is not
    above [2 ^ 48].  The sketch the constructor returns has rendered once,
    and after any sequence of events, whatever their time stamps, its [time]
    is that sum for the number of frames rendered.  Every event leaves
    [time] where it was or adds 0.01 to it, and [time] never decreases. *)
Theorem FrameTime_lockstep (dev : Device.t float) (es : list (Event float))
    (e : Event float) (k : nat) :
  exists sk s0 s s' q,
    time (constructor_fields dev) = 0%float /\
    repeat_call render k (addGeometry (initStats (constructor_fields dev))) =
      Some sk /\
    time sk = advance_time k 0%float /\
    float_value (time sk) = Some q /\
    (Qabs (q - inject_Z (Z.of_nat k) * (1 # 100)) <=
     inject_Z (Z.of_nat k) * (1 # 4503599627370496) * q)%Q /\
    (q <= inject_Z (2 ^ 48))%Q /\
    constructor dev = Some s0 /\
    run es s0 = Some s /\
    time s = advance_time (1 + count_frames es) 0%float /\
    dispatch e s = Some s' /\
    time s' = (if is_frame e then time s + 0.01 else time s)%float /\
    (time s <=? time s')%float = true.
Proof.
  destruct (addGeometry_spec dev) as (Hwfg & Hfeedg & Htg).
  destruct (repeat_render k _ Hwfg Hfeedg) as (sk & Hk & _ & _ & Htk).
  destruct (constructor_spec dev) as (s0 & Hc & Hrun0 & Ht0 & _).
  destruct (run_running es s0 Hrun0) as (s & Hr & Hrun & _ & _ & Ht & _).
  destruct (dispatch_running e s Hrun) as (s' & Hd & _ & _ & _ & Ht' & _).
  rewrite Htg in Htk.
  assert (Hs : time s = advance_time (1 + count_frames es) 0%float)
    by (rewrite Ht, Ht0; reflexivity).
  destruct (advance_time_tolerance k) as (q & Hq & Htol & Hbound).
  exists sk, s0, s, s', q. split_and!.
  - reflexivity.
  - exact Hk.
  - exact Htk.
  - rewrite Htk. exact Hq.
  - exact Htol.
  - exact Hbound.
  - exact Hc.
  - exact Hr.
  - exact Hs.
  - exact Hd.
  - exact Ht'.
  - rewrite Ht'. destruct (is_frame e).
    + change (@num_add float float_Number) with PrimFloat.add.
      change (@num_0_01 float float_Number) with 0.01%float.
      rewrite Hs, <- advance_time_S. apply advance_time_mono.
    + rewrite Hs. apply advance_time_refl.
Qed.

(** The clock falls behind the frame count: after [10 ^ 17] ticks [time] is
    less than a third of [10 ^ 17 * 0.01 = 10 ^ 15]. *)
Lemma FrameTime_falls_behind :
  exists sk q,
    repeat_call render (Z.to_nat (10 ^ 17))
      (addGeometry (initStats (constructor_fields sample_device))) =
      Some sk /\
    float_value (time sk) = Some q /\
    (3 * q < inject_Z (10 ^ 15))%Q.
Proof.
  generalize (Z.to_nat (10 ^ 17)). intros k.
  destruct (addGeometry_spec sample_device) as (Hwfg & Hfeedg & Htg).
  destruct (repeat_render k _ Hwfg Hfeedg) as (sk & Hk & _ & _ & Htk).
  rewrite Htg in Htk.
  destruct (advance_time_tolerance k) as (q & Hq & _ & Hbound).
  exists sk, q. split; [exact Hk|]. split; [rewrite Htk; exact Hq|].
  revert Hbound. change (2 ^ 48) with 281474976710656.
  change (10 ^ 15) with 1000000000000000.
  destruct q as [n d].
  cbv beta iota delta [Qle Qlt Qmult inject_Z Qnum Qden]. lia.
Qed.

(** X13. The frame clock in binary64 neither overflows nor passes
    [2 ^ 48]: after any sequence of events, however many frames it holds,
    [time] is a finite number between 0.01 and [2 ^ 48]. *)
Theorem FrameTime_bounded (dev : Device.t float) (es : list (Event float)) :
  exists s0 s,
    constructor dev = Some s0 /\
    run es s0 = Some s /\
    is_finite (time s) = true /\
    (0.01 <=? time s)%float = true /\
    (time s <=? 0x1p48)%float = true.
Proof.
  destruct (constructor_spec dev) as (s0 & Hc & Hrun0 & Ht0 & _).
  destruct (run_running es s0 Hrun0) as (s & Hr & _ & _ & _ & Ht & _).
  assert (Hs : time s = advance_time (S (count_frames es)) 0%float)
    by (rewrite Ht, Ht0; reflexivity).
  destruct (advance_time_scaled (count_frames es))
    as (m & e & Hsf & He & [HC HV] & _).
  pose proof (Prim2SF_valid (advance_time (S (count_frames es)) 0%float))
    as Hv.
  rewrite Hsf in Hv. cbn [SpecFloat.valid_binary] in Hv.
  pose proof (bounded_normal m e Hv ltac:(lia)) as Hm.
  exists s0, s. split; [exact Hc|]. split; [exact Hr|]. rewrite Hs.
  split_and!.
  - unfold is_finite, is_nan, is_infinity.
    rewrite !FloatAxioms.eqb_spec, FloatAxioms.abs_spec, Hsf.
    change (Prim2SF infinity) with (S754_infinity false).
    unfold SFeqb, SFabs, SFcompare.
    rewrite Z.compare_refl, Pos.compare_cont_refl. reflexivity.
  - rewrite leb_spec, Hsf.
    change (Prim2SF 0.01) with (S754_finite false tick_mantissa (-59)).
    apply SFleb_scaled; [|exact Hm|lia|exact He|].
    + unfold tick_mantissa. change (2 ^ 52) with 4503599627370496.
      change (2 ^ 53) with 9007199254740992. lia.
    + change (2 ^ (-59 + 59)) with 1. lia.
  - rewrite leb_spec, Hsf.
    change (Prim2SF 0x1p48) with (S754_finite false 4503599627370496 (-4)).
    apply SFleb_scaled; [exact Hm| |exact He|lia|].
    + change (2 ^ 52) with 4503599627370496.
      change (2 ^ 53) with 9007199254740992. lia.
    + change (4503599627370496 * 2 ^ (-4 + 59)) with (2 ^ 107). lia.
Qed.

End Binary64.

(** * The properties at concrete inputs *)

Lemma sample_sketch_wf : wf sample_sketch.
Proof.
  apply (@bool_decide_unpack _ (wf_dec sample_sketch)).
  vm_compute. reflexivity.
Defined.

Lemma sample_sketch_feed_linked : feed_linked sample_sketch.
Proof.
  apply (@bool_decide_unpack _ (feed_linked_dec sample_sketch)).
  vm_compute. reflexivity.
Defined.

(** The shift at the sample sketch: the trail held the top-left corner and
    the centre, the pointer is at the bottom-right corner. *)
Lemma updatePointerTrail_shifts_witness :
  wf sample_sketch /\
  trail_values sample_sketch = Some sample_trail /\
  pointer_value sample_sketch = Some sample_pointer /\
  exists s' new,
    updatePointerTrail sample_sketch = Some s' /\
    trail_values s' = Some new /\
    length new = trailLength sample_sketch /\
    new !! 0%nat = Some sample_pointer /\
    (forall i, (1 <= i < trailLength sample_sketch)%nat ->
       new !! i = sample_trail !! (i - 1)%nat) /\
    new = sample_pointer :: take (trailLength sample_sketch - 1) sample_trail /\
    pointer_value s' = Some sample_pointer.
Proof.
  assert (Ht : trail_values sample_sketch = Some sample_trail)
    by (vm_compute; reflexivity).
  assert (Hp : pointer_value sample_sketch = Some sample_pointer)
    by (vm_compute; reflexivity).
  split; [exact sample_sketch_wf|]. split; [exact Ht|]. split; [exact Hp|].
  exact (updatePointerTrail_shifts sample_sketch sample_trail sample_pointer
           sample_sketch_wf Ht Hp).
Defined.

(** A tick at the sample sketch. *)
Lemma render_feeds_uniforms_witness :
  wf sample_sketch /\ feed_linked sample_sketch /\
  exists s' u,
    render sample_sketch = Some s' /\
    planeMesh s' = Some u /\
    Uniforms.time u = time s' /\
    readArray (Uniforms.uPointerTrail u) (heap s') =
      Some (sample_pointer ::
            take (trailLength sample_sketch - 1) sample_trail).
Proof.
  split; [exact sample_sketch_wf|]. split; [exact sample_sketch_feed_linked|].
  destruct (render_feeds_uniforms sample_sketch sample_sketch_wf
              sample_sketch_feed_linked)
    as (s' & u & Hr & Hu & _ & Ht & _ & _ & Hshift).
  exists s', u. split; [exact Hr|]. split; [exact Hu|]. split; [exact Ht|].
  apply Hshift; vm_compute; reflexivity.
Defined.

(** A tick at the sample sketch: the renderer draws the bottom-right corner
    in front of the old trail. *)
Lemma render_order_witness :
  wf sample_sketch /\ feed_linked sample_sketch /\
  trail_values sample_sketch = Some sample_trail /\
  pointer_value sample_sketch = Some sample_pointer /\
  exists s' r,
    render sample_sketch = Some s' /\
    trace s' =
      trace sample_sketch ++
      tick_trace (stats sample_sketch) (time sample_sketch + num_0_01)%num r
        (sample_pointer :: take (trailLength sample_sketch - 1) sample_trail) /\
    trail_values s' =
      Some (sample_pointer ::
            take (trailLength sample_sketch - 1) sample_trail).
Proof.
  assert (Ht : trail_values sample_sketch = Some sample_trail)
    by (vm_compute; reflexivity).
  assert (Hp : pointer_value sample_sketch = Some sample_pointer)
    by (vm_compute; reflexivity).
  split; [exact sample_sketch_wf|]. split; [exact sample_sketch_feed_linked|].
  split; [exact Ht|]. split; [exact Hp|].
  destruct (render_order sample_sketch sample_trail sample_pointer
              sample_sketch_wf sample_sketch_feed_linked Ht Hp)
    as (s' & r & u & Hr & Htr & _ & _ & _ & Hvs & _).
  exists s', r. split; [exact Hr|]. split; [exact Htr|]. exact Hvs.
Defined.

(** Two frames and a resize, then three more shifts, on any device. *)
Lemma trail_stays_at_origin_witness :
  no_mousemove
    [AnimationFrame 16.7%float; WindowResize 1024%float 512%float;
     AnimationFrame 250%float] =
    true /\
  exists s0 s1 s2,
    constructor sample_device = Some s0 /\
    run [AnimationFrame 16.7%float; WindowResize 1024%float 512%float;
     AnimationFrame 250%float]
      s0 = Some s1 /\
    repeat_call updatePointerTrail 3 s1 = Some s2 /\
    trail_values s2 = Some (replicate 15 origin).
Proof.
  split; [reflexivity|].
  destruct (trail_stays_at_origin sample_device
              [AnimationFrame 16.7%float; WindowResize 1024%float 512%float;
               AnimationFrame 250%float] 3 eq_refl)
    as (s0 & s1 & s2 & _ & _ & Hc & _ & _ & Hr & Hk & _ & Ht).
  exists s0, s1, s2. split; [exact Hc|]. split; [exact Hr|].
  split; [exact Hk|]. exact Ht.
Defined.





(** ** Binary64 evaluations *)

(** One hundred ticks from time 0: the sum of one hundred roundings of 0.01
    is 1.0000000000000007, within 1e-9 of 1. *)
Example binary64_hundred_ticks :
  (s ← repeat_call render 100
         (addGeometry (initStats (constructor_fields sample_device)));
   Some (time s,
         PrimFloat.ltb (PrimFloat.abs (time s - 1)) 0x1p-30)%float) =
  Some (1.0000000000000007%float, true).
Proof. vm_compute. reflexivity. Qed.

(** The centre and the two corners of the sample rectangle map to (0, 0),
    (-1, 1) and (1, -1), exactly. *)
Example binary64_corners :
  (s0 ← constructor sample_device;
   s1 ← onMouseMove 410%float 320%float sample_rect s0;
   s2 ← onMouseMove 10%float 20%float sample_rect s0;
   s3 ← onMouseMove 810%float 620%float sample_rect s0;
   Some (pointer_value s1, pointer_value s2, pointer_value s3)) =
  Some (Some (Vector2.make 0%float 0%float),
        Some (Vector2.make (-1)%float 1%float),
        Some (Vector2.make 1%float (-1)%float)).
Proof. vm_compute. reflexivity. Qed.

(** An event outside the rectangle is stored beyond -1. *)
Example binary64_outside :
  (s0 ← constructor sample_device;
   s1 ← onMouseMove 0%float 700%float sample_rect s0;
   p ← pointer_value s1;
   Some (PrimFloat.ltb (Vector2.x p) (-1), PrimFloat.ltb (Vector2.y p) (-1))
  )%float = Some (true, true).
Proof. vm_compute. reflexivity. Qed.

(** A rectangle of width and height 0 has one point for its centre and its
    corners; binary64 division sends it to NaN. *)
Example binary64_empty_rect :
  (s0 ← constructor sample_device;
   s1 ← onMouseMove 0%float 0%float
          (DOMRect.make 0%float 0%float 0%float 0%float) s0;
   p ← pointer_value s1;
   Some (PrimFloat.is_nan (Vector2.x p), PrimFloat.is_nan (Vector2.y p))) =
  Some (true, true).
Proof. vm_compute. reflexivity. Qed.

(** * One event at a time *)

Section RunFacts.
Context {num : Type} `{Number num}.

Implicit Types (s : Sketch num) (h : Heap num) (v p : Vector2.t num).

Lemma store_store l o1 o2 h : store l o2 (store l o1 h) = store l o2 h.
Proof. unfold store; cbn [cells next]. f_equal. apply insert_insert_eq. Qed.

(** Writing over a vector keeps the set of allocated locations. *)
Lemma store_vector_dom l v h :
  is_Some (getVector2 l h) ->
  dom (cells (store l (ObjVector2 v) h)) = dom (cells h).
Proof.
  intros [w Hw]. unfold store; cbn [cells]. apply dom_insert_lookup_L.
  unfold getVector2 in Hw. destruct (cells h !! l); [by eexists|done].
Qed.

Lemma Vector2_copy_shape dst src h h' :
  Vector2_copy dst src h = Some h' ->
  next h' = next h /\ dom (cells h') = dom (cells h) /\
  forall b, getArray b h' = getArray b h.
Proof.
  unfold Vector2_copy.
  destruct (getVector2 src h) as [v|] eqn:Hs; cbn [mbind option_bind]; [|done].
  destruct (getVector2 dst h) as [w|] eqn:Hd; cbn [mbind option_bind]; [|done].
  intros [= <-]. split_and!.
  - reflexivity.
  - apply store_vector_dom. by eexists.
  - intros b. apply getArray_store_vector. by eexists.
Qed.

Lemma shift_from_shape a i : forall h h',
  shift_from a i h = Some h' ->
  next h' = next h /\ dom (cells h') = dom (cells h) /\
  forall b, getArray b h' = getArray b h.
Proof.
  induction i as [|j IH]; intros h h'.
  - cbn [shift_from]. by intros [= <-].
  - cbn [shift_from].
    destruct (index a (S j) h) as [dst|]; cbn [mbind option_bind]; [|done].
    destruct (index a j h) as [src|]; cbn [mbind option_bind]; [|done].
    destruct (Vector2_copy dst src h) as [h1|] eqn:Hc;
      cbn [mbind option_bind]; [|done].
    intros Hrest. destruct (Vector2_copy_shape _ _ _ _ Hc) as (Hn1 & Hd1 & Ha1).
    destruct (IH _ _ Hrest) as (Hn & Hd & Ha). split_and!.
    + by rewrite Hn.
    + by rewrite Hd.
    + intros b. by rewrite Ha.
Qed.

(** [updatePointerTrail] allocates nothing and leaves every array as it
    is. *)
Lemma advance_store_shape a n m h h' :
  advance_store a n m h = Some h' ->
  next h' = next h /\ dom (cells h') = dom (cells h) /\
  forall b, getArray b h' = getArray b h.
Proof.
  unfold advance_store.
  destruct (shift_from a (n - 1) h) as [h1|] eqn:Hs;
    cbn [mbind option_bind]; [|done].
  destruct (index a 0 h1) as [dst|]; cbn [mbind option_bind]; [|done].
  intros Hc. destruct (shift_from_shape _ _ _ _ Hs) as (Hn1 & Hd1 & Ha1).
  destruct (Vector2_copy_shape _ _ _ _ Hc) as (Hn & Hd & Ha). split_and!.
  - by rewrite Hn.
  - by rewrite Hd.
  - intros b. by rewrite Ha.
Qed.

Lemma updatePointerTrail_unfold s :
  updatePointerTrail s =
    (h' ← advance_store (pointerTrail s) (trailLength s) (mousePosition s)
            (heap s);
     Some (set_heap h' s)).
Proof.
  unfold updatePointerTrail, advance_store.
  destruct (shift_from _ _ _) as [h1|]; cbn [mbind option_bind]; [|done].
  by destruct (index _ _ _) as [dst|]; cbn [mbind option_bind].
Qed.

(** The [mousemove] listener is one write of the normalized position. *)
Lemma onMouseMove_closed clientX clientY rect s :
  is_Some (pointer_value s) ->
  onMouseMove clientX clientY rect s =
    Some (set_heap
            (store (mousePosition s)
               (ObjVector2 (normalize clientX clientY rect)) (heap s)) s).
Proof.
  intros [p Hp]. unfold pointer_value in Hp.
  unfold onMouseMove, Vector2_set_x, Vector2_set_y.
  rewrite Hp; cbn [mbind option_bind].
  rewrite getVector2_store, decide_True by done; cbn [mbind option_bind].
  cbn [Vector2.x Vector2.y]. by rewrite store_store.
Qed.

(** Whenever [render] returns, this is what it did. *)
Lemma render_inv s s' :
  render s = Some s' ->
  exists h' u r vs,
    advance_store (pointerTrail s) (trailLength s) (mousePosition s)
      (heap s) = Some h' /\
    planeMesh s = Some u /\
    getVector2 (Uniforms.uResolution u) h' = Some r /\
    readArray (Uniforms.uPointerTrail u) h' = Some vs /\
    s' = {| time := (time s + num_0_01)%num;
            trailLength := trailLength s;
            pointerTrail := pointerTrail s;
            mousePosition := mousePosition s;
            camera_aspect := camera_aspect s;
            renderer_size := renderer_size s;
            stats := stats s;
            planeMesh :=
              Some (Uniforms.make (time s + num_0_01)%num
                      (Uniforms.uResolution u) (Uniforms.uPointerTrail u));
            device := device s;
            heap := h';
            listeners := listeners s;
            frames_requested := S (frames_requested s);
            trace :=
              trace s ++ tick_trace (stats s) (time s + num_0_01)%num r vs |}.
Proof.
  unfold render.
  set (s1 := emit _ (set_time _ (stats_call StatsBegin s))).
  rewrite (updatePointerTrail_unfold s1).
  assert (Hs1 : pointerTrail s1 = pointerTrail s /\
                trailLength s1 = trailLength s /\
                mousePosition s1 = mousePosition s /\ heap s1 = heap s)
    by (unfold s1, stats_call; by destruct (stats s)).
  destruct Hs1 as (-> & -> & -> & ->).
  destruct (advance_store _ _ _ _) as [h'|] eqn:Hadv;
    cbn [mbind option_bind]; [|done].
  assert (Hu1 : planeMesh (emit PointerTrailUpdated (set_heap h' s1)) =
                planeMesh s)
    by (unfold s1, stats_call; by destruct (stats s)).
  rewrite Hu1. clear Hu1.
  destruct (planeMesh s) as [u|] eqn:Hu; cbn [mbind option_bind]; [|done].
  unfold renderer_render. cbn [planeMesh emit set_planeMesh mbind option_bind].
  cbn [Uniforms.uResolution Uniforms.uPointerTrail Uniforms.time heap emit
       set_planeMesh set_heap].
  destruct (getVector2 _ h') as [r|] eqn:Hr; cbn [mbind option_bind]; [|done].
  destruct (readArray _ h') as [vs|] eqn:Hvs; cbn [mbind option_bind]; [|done].
  intros [= <-]. exists h', u, r, vs.
  split; [reflexivity|]. split; [reflexivity|]. split; [exact Hr|].
  split; [exact Hvs|].
  unfold s1, stats_call, tick_trace.
  destruct (stats s) eqn:Hst; apply Sketch_ext;
    do 2 (cbn [time trailLength pointerTrail mousePosition camera_aspect
               renderer_size stats planeMesh device heap listeners
               frames_requested trace
               set_frames_requested emit set_planeMesh set_heap set_time];
          rewrite ?Hst);
    rewrite <- ?app_assoc; reflexivity.
Qed.

(** One event on the running sketch, case by case. *)
Lemma dispatch_cases e s s' :
  running s -> dispatch e s = Some s' ->
  match e with
  | AnimationFrame _ =>
      exists h' u r vs,
        advance_store (pointerTrail s) (trailLength s) (mousePosition s)
          (heap s) = Some h' /\
        planeMesh s = Some u /\
        getVector2 (Uniforms.uResolution u) h' = Some r /\
        readArray (Uniforms.uPointerTrail u) h' = Some vs /\
        s' = {| time := (time s + num_0_01)%num;
                trailLength := trailLength s;
                pointerTrail := pointerTrail s;
                mousePosition := mousePosition s;
                camera_aspect := camera_aspect s;
                renderer_size := renderer_size s;
                stats := stats s;
                planeMesh :=
                  Some (Uniforms.make (time s + num_0_01)%num
                          (Uniforms.uResolution u) (Uniforms.uPointerTrail u));
                device := device s;
                heap := h';
                listeners := listeners s;
                frames_requested := 1;
                trace :=
                  trace s ++
                  tick_trace (stats s) (time s + num_0_01)%num r vs |}
  | MouseMove clientX clientY rect =>
      s' = set_heap
             (store (mousePosition s)
                (ObjVector2 (normalize clientX clientY rect)) (heap s)) s
  | WindowResize innerWidth innerHeight =>
      s' = onResize innerWidth innerHeight s
  end.
Proof.
  intros (Hwf & Hfeed & Hfr & Hlr & Hlm). destruct e as [now|cx cy rect|w h'].
  - cbn [dispatch]. rewrite Hfr. intros Hr.
    destruct (render_inv _ _ Hr) as (h' & u & r & vs & Ha & Hu & Hres & Hvs & ->).
    exists h', u, r, vs. split; [exact Ha|]. split; [exact Hu|].
    split; [exact Hres|]. split; [exact Hvs|]. reflexivity.
  - cbn [dispatch]. rewrite decide_True by exact Hlm.
    rewrite onMouseMove_closed.
    + by intros [= <-].
    + destruct (wf_values s Hwf) as (old & p & _ & Hp & _). by exists p.
  - cbn [dispatch]. rewrite decide_True by exact Hlr. by intros [= <-].
Qed.

(** The current pointer and the trail after one event. *)
Lemma dispatch_history e s p old :
  running s -> pointer_value s = Some p -> trail_values s = Some old ->
  exists s',
    dispatch e s = Some s' /\ running s' /\
    trailLength s' = trailLength s /\
    pointer_value s' = Some (pointer_after [e] p) /\
    trail_values s' =
      Some (if is_frame e then p :: take (trailLength s - 1) old else old).
Proof.
  intros Hrun Hp Hold.
  destruct (dispatch_running e s Hrun)
    as (s' & Hd & Hrun' & Hn & _ & _ & Hp' & Hsame & Hshift).
  exists s'. split; [exact Hd|]. split; [exact Hrun'|]. split; [exact Hn|].
  pose proof (dispatch_cases e s s' Hrun Hd) as Hc.
  destruct e as [now|cx cy rect|w h']; cbn [is_frame pointer_after].
  - split; [by rewrite Hp'|]. by apply Hshift.
  - split; [|by rewrite Hsame]. subst s'.
    unfold pointer_value. cbn [set_heap mousePosition heap].
    by rewrite getVector2_store, decide_True.
  - split; [by rewrite Hp'|]. by rewrite Hsame.
Qed.

Lemma take_app_shift {A} (n : nat) (xs : list A) (p : A) (old : list A) :
  take n (xs ++ p :: take (n - 1) old) = take n ((xs ++ [p]) ++ old).
Proof.
  rewrite <- app_assoc. cbn [app]. rewrite !take_app. f_equal.
  destruct (n - length xs)%nat as [|m] eqn:Hm; [done|].
  cbn [take]. f_equal. rewrite take_take. f_equal. lia.
Qed.

(** The current pointer and the trail after any events: the trail is the
    pointer as the frames found it, newest first, followed by what the trail
    held, cut to [trailLength]. *)
Lemma run_history es : forall s p old,
  running s -> pointer_value s = Some p -> trail_values s = Some old ->
  length old = trailLength s ->
  exists s',
    run es s = Some s' /\ running s' /\
    trailLength s' = trailLength s /\
    pointer_value s' = Some (pointer_after es p) /\
    trail_values s' =
      Some (take (trailLength s) (frame_samples es p ++ old)).
Proof.
  induction es as [|e es IH]; intros s p old Hrun Hp Hold Hlen.
  - exists s. split_and!; try done.
    cbn [frame_samples app]. rewrite Hold. f_equal.
    symmetry. apply take_ge. lia.
  - destruct (dispatch_history e s p old Hrun Hp Hold)
      as (s1 & Hd & Hrun1 & Hn1 & Hp1 & Htr1).
    assert (Hpos : (0 < trailLength s)%nat).
    { destruct Hrun as (Hwf & _).
      by destruct (wf_elems s Hwf) as (? & _ & _ & Hpos & _). }
    assert (Hlen1 : length (if is_frame e
                            then p :: take (trailLength s - 1) old
                            else old) = trailLength s1).
    { rewrite Hn1. destruct (is_frame e); [|done].
      cbn [length]. rewrite length_take. lia. }
    destruct (IH s1 _ _ Hrun1 Hp1 Htr1 Hlen1)
      as (s' & Hr & Hrun' & Hn & Hp' & Htr').
    exists s'. split_and!.
    + cbn [run]. by rewrite Hd.
    + exact Hrun'.
    + by rewrite Hn.
    + rewrite Hp'. by destruct e.
    + rewrite Htr', Hn1. f_equal.
      destruct e as [now|cx cy rect|w h']; cbn [is_frame pointer_after frame_samples].
      * apply take_app_shift.
      * reflexivity.
      * reflexivity.
Qed.

(** No event allocates, rebinds [pointerTrail] or [mousePosition], or
    changes an array. *)
Lemma dispatch_shape e s s' :
  running s -> dispatch e s = Some s' ->
  next (heap s') = next (heap s) /\
  dom (cells (heap s')) = dom (cells (heap s)) /\
  (forall b, getArray b (heap s') = getArray b (heap s)) /\
  pointerTrail s' = pointerTrail s /\ mousePosition s' = mousePosition s /\
  Uniforms.uPointerTrail <$> planeMesh s' =
    Uniforms.uPointerTrail <$> planeMesh s /\
  Uniforms.uResolution <$> planeMesh s' =
    Uniforms.uResolution <$> planeMesh s.
Proof.
  intros Hrun Hd. pose proof (dispatch_cases e s s' Hrun Hd) as Hc.
  destruct Hrun as (Hwf & _).
  destruct e as [now|cx cy rect|w h'].
  - destruct Hc as (h' & u & r & vs & Ha & Hu & _ & _ & ->).
    destruct (advance_store_shape _ _ _ _ _ Ha) as (Hn & Hdom & Harr).
    cbn [heap pointerTrail mousePosition planeMesh]. rewrite Hu.
    by split_and!.
  - subst s'. cbn [set_heap heap pointerTrail mousePosition planeMesh].
    destruct (wf_elems s Hwf) as (_ & _ & _ & _ & _ & _ & Hmv & _).
    split_and!; try reflexivity.
    + by apply store_vector_dom.
    + intros b. by apply getArray_store_vector.
  - subst s'. by split_and!.
Qed.

Lemma run_shape es : forall s,
  running s ->
  exists s',
    run es s = Some s' /\ running s' /\
    next (heap s') = next (heap s) /\
    dom (cells (heap s')) = dom (cells (heap s)) /\
    (forall b, getArray b (heap s') = getArray b (heap s)) /\
    pointerTrail s' = pointerTrail s /\ mousePosition s' = mousePosition s /\
    Uniforms.uPointerTrail <$> planeMesh s' =
      Uniforms.uPointerTrail <$> planeMesh s /\
    Uniforms.uResolution <$> planeMesh s' =
      Uniforms.uResolution <$> planeMesh s.
Proof.
  induction es as [|e es IH]; intros s Hrun.
  - exists s. by split_and!.
  - destruct (dispatch_running e s Hrun) as (s1 & Hd & Hrun1 & _).
    destruct (dispatch_shape e s s1 Hrun Hd)
      as (Hn1 & Hdom1 & Harr1 & Ha1 & Hm1 & Hu1 & Hres1).
    destruct (IH s1 Hrun1)
      as (s' & Hr & Hrun' & Hn & Hdom & Harr & Ha & Hm & Hu & Hres).
    exists s'. split_and!.
    + cbn [run]. by rewrite Hd.
    + exact Hrun'.
    + by rewrite Hn.
    + by rewrite Hdom.
    + intros b. by rewrite Harr.
    + by rewrite Ha.
    + by rewrite Hm.
    + by rewrite Hu.
    + by rewrite Hres.
Qed.

(** A frame event adds one render call to the trace, any other event
    none. *)
Lemma dispatch_render_calls e s s' :
  running s -> dispatch e s = Some s' ->
  length (render_calls (trace s')) =
    (length (render_calls (trace s)) + (if is_frame e then 1 else 0))%nat /\
  listeners s' = listeners s.
Proof.
  intros Hrun Hd. pose proof (dispatch_cases e s s' Hrun Hd) as Hc.
  destruct e as [now|cx cy rect|w h']; cbn [is_frame].
  - destruct Hc as (h' & u & r & vs & _ & _ & _ & _ & ->).
    cbn [trace listeners]. split; [|reflexivity].
    unfold render_calls. rewrite List.filter_app, length_app. f_equal.
    by destruct (stats s).
  - subst s'. cbn [set_heap trace listeners]. split; [lia|reflexivity].
  - subst s'. split; [|reflexivity]. unfold onResize.
    cbn [trace emit set_renderer_size set_camera_aspect set_device].
    unfold render_calls. rewrite !List.filter_app, !length_app.
    cbn [List.filter is_render_call length]. lia.
Qed.

Lemma run_render_calls es : forall s,
  running s ->
  exists s',
    run es s = Some s' /\ running s' /\
    length (render_calls (trace s')) =
      (length (render_calls (trace s)) + count_frames es)%nat /\
    listeners s' = listeners s.
Proof.
  induction es as [|e es IH]; intros s Hrun.
  - exists s. split_and!; [done|done|cbn [count_frames]; lia|done].
  - destruct (dispatch_running e s Hrun) as (s1 & Hd & Hrun1 & _).
    destruct (dispatch_render_calls e s s1 Hrun Hd) as (Hc1 & Hl1).
    destruct (IH s1 Hrun1) as (s' & Hr & Hrun' & Hc & Hl).
    exists s'. split_and!.
    + cbn [run]. by rewrite Hd.
    + exact Hrun'.
    + rewrite Hc, Hc1. cbn [count_frames]. destruct (is_frame e); lia.
    + by rewrite Hl.
Qed.

(** The camera and the renderer follow the [device] record, which only a
    resize changes. *)
Lemma dispatch_device e s s' :
  running s -> device_synced s -> dispatch e s = Some s' ->
  device_synced s' /\
  (Device.width (device s'), Device.height (device s')) =
    last_size [e] (Device.width (device s), Device.height (device s)) /\
  Device.pixelRatio (device s') = Device.pixelRatio (device s).
Proof.
  intros Hrun [Hcam Hren] Hd.
  pose proof (dispatch_cases e s s' Hrun Hd) as Hc.
  destruct e as [now|cx cy rect|w h']; cbn [last_size].
  - destruct Hc as (h' & u & r & vs & _ & _ & _ & _ & ->).
    unfold device_synced. cbn [camera_aspect renderer_size device].
    by split_and!.
  - subst s'. unfold device_synced.
    cbn [set_heap camera_aspect renderer_size device]. by split_and!.
  - subst s'. by split_and!.
Qed.

Lemma run_device es : forall s,
  running s -> device_synced s ->
  exists s',
    run es s = Some s' /\ running s' /\ device_synced s' /\
    (Device.width (device s'), Device.height (device s')) =
      last_size es (Device.width (device s), Device.height (device s)) /\
    Device.pixelRatio (device s') = Device.pixelRatio (device s).
Proof.
  induction es as [|e es IH]; intros s Hrun Hsync.
  - exists s. by split_and!.
  - destruct (dispatch_running e s Hrun) as (s1 & Hd & Hrun1 & _).
    destruct (dispatch_device e s s1 Hrun Hsync Hd) as (Hsync1 & Hwh1 & Hpr1).
    destruct (IH s1 Hrun1 Hsync1) as (s' & Hr & Hrun' & Hsync' & Hwh & Hpr).
    exists s'. split_and!.
    + cbn [run]. by rewrite Hd.
    + exact Hrun'.
    + exact Hsync'.
    + rewrite Hwh, Hwh1. by destruct e.
    + by rewrite Hpr.
Qed.




(** Frames and resizes only: every frame finds the same pointer. *)
Lemma frame_samples_no_mousemove es : forall p : Vector2.t num,
  no_mousemove es = true ->
  frame_samples es p = replicate (count_frames es) p /\
  pointer_after es p = p.
Proof.
  induction es as [|e es IH]; intros p Hes; [done|].
  unfold no_mousemove in Hes. cbn [forallb] in Hes.
  apply andb_prop in Hes as [He Hes]. destruct (IH p Hes) as [Hfs Hpa].
  destruct e as [now|cx cy rect|w h']; [| done |].
  - cbn [frame_samples pointer_after count_frames is_frame].
    rewrite Hfs. split; [|exact Hpa].
    cbn [Nat.add replicate]. by rewrite replicate_cons_app.
  - cbn [frame_samples pointer_after count_frames is_frame]. by split.
Qed.

(** An element read past the end of the trail array is [undefined]. *)
Lemma index_default a i h :
  index a i h = default [] (getArray a h) !! i.
Proof. unfold index. by destruct (getArray a h). Qed.

(** More of what the constructor returns. *)
Lemma constructor_facts dev :
  exists s,
    constructor dev = Some s /\
    next (heap s) = 18%nat /\
    Uniforms.uPointerTrail <$> planeMesh s = Some (pointerTrail s) /\
    length (render_calls (trace s)) = 1%nat /\
    listeners s = [resize_event; mousemove_event] /\
    device_synced s.
Proof. eexists. split; [by vm_compute|]. by vm_compute. Qed.

(** The [time] uniform holds [this.time] between the events. *)
Lemma dispatch_time_uniform e s s' :
  running s -> dispatch e s = Some s' ->
  Uniforms.time <$> planeMesh s = Some (time s) ->
  Uniforms.time <$> planeMesh s' = Some (time s').
Proof.
  intros Hrun Hd Hsync. pose proof (dispatch_cases e s s' Hrun Hd) as Hc.
  destruct e as [now|cx cy rect|w h'].
  - by destruct Hc as (h' & u & r & vs & _ & _ & _ & _ & ->).
  - by subst s'.
  - by subst s'.
Qed.

Lemma run_time_uniform es : forall s,
  running s -> Uniforms.time <$> planeMesh s = Some (time s) ->
  exists s',
    run es s = Some s' /\ running s' /\
    Uniforms.time <$> planeMesh s' = Some (time s').
Proof.
  induction es as [|e es IH]; intros s Hrun Hsync.
  - by exists s.
  - destruct (dispatch_running e s Hrun) as (s1 & Hd & Hrun1 & _).
    pose proof (dispatch_time_uniform e s s1 Hrun Hd Hsync) as Hsync1.
    destruct (IH s1 Hrun1 Hsync1) as (s' & Hr & Hrun' & Hsync').
    exists s'. split_and!; try done. cbn [run]. by rewrite Hd.
Qed.

Lemma constructor_time_uniform dev :
  exists s,
    constructor dev = Some s /\
    Uniforms.time <$> planeMesh s = Some (time s).
Proof. eexists. split; by vm_compute. Qed.

End RunFacts.

(** * Further properties of the sketch *)

Section Extras.
Context {num : Type} `{Number num}.

Implicit Types (s : Sketch num) (v p : Vector2.t num).

(** X1. After any sequence of events on the running sketch, the trail
    buffer holds the current pointer as each frame found it, newest first,
    followed by what the trail held before, cut to [trailLength]; the
    current pointer is the position of the last [mousemove]. *)
Theorem trail_is_frame_history s (es : list (Event num)) p old :
  running s -> pointer_value s = Some p -> trail_values s = Some old ->
  exists s',
    run es s = Some s' /\
    pointer_value s' = Some (pointer_after es p) /\
    trail_values s' =
      Some (take (trailLength s) (frame_samples es p ++ old)).
Proof.
  intros Hrun Hp Hold.
  assert (Hlen : length old = trailLength s).
  { destruct Hrun as (Hwf & _).
    destruct (wf_values s Hwf) as (old' & _ & Hold' & _ & Hlen). congruence. }
  destruct (run_history es s p old Hrun Hp Hold Hlen)
    as (s' & Hr & _ & _ & Hp' & Htr').
  by exists s'.
Qed.

(** X2. Once the pointer has been at rest for [trailLength] frames (no
    [mousemove] among the events, resizes allowed), every slot of the trail
    holds the pointer's position. *)
Theorem trail_settles_on_pointer s (es : list (Event num)) p :
  running s -> pointer_value s = Some p ->
  no_mousemove es = true -> (trailLength s <= count_frames es)%nat ->
  exists s',
    run es s = Some s' /\
    pointer_value s' = Some p /\
    trail_values s' = Some (replicate (trailLength s) p).
Proof.
  intros Hrun Hp Hes Hk.
  destruct Hrun as (Hwf & Hrest).
  destruct (wf_values s Hwf) as (old & p' & Hold & Hp' & Hlen).
  assert (p' = p) by congruence. subst p'.
  destruct (run_history es s p old (conj Hwf Hrest) Hp Hold Hlen)
    as (s' & Hr & _ & _ & Hpa & Htr).
  destruct (frame_samples_no_mousemove es p Hes) as [Hfs Hpe].
  exists s'. split; [exact Hr|]. split; [by rewrite Hpa, Hpe|].
  rewrite Htr, Hfs. f_equal.
  rewrite take_app_le by (rewrite length_replicate; lia).
  rewrite take_replicate. f_equal. lia.
Qed.

(** X3. Of two [mousemove] events in a row the first leaves nothing behind:
    the sketch is in the very state the second one alone would have
    produced, so positions between two frames never reach the trail. *)
Theorem mousemove_overwrites s (x1 y1 x2 y2 : num) (r1 r2 : DOMRect.t num)
    (es : list (Event num)) :
  running s ->
  run (MouseMove x1 y1 r1 :: MouseMove x2 y2 r2 :: es) s =
  run (MouseMove x2 y2 r2 :: es) s.
Proof.
  intros Hrun.
  destruct (dispatch_running (MouseMove x1 y1 r1) s Hrun)
    as (s1 & Hd1 & Hrun1 & _).
  pose proof (dispatch_cases _ s s1 Hrun Hd1) as Hc1. cbn beta iota in Hc1.
  destruct (dispatch_running (MouseMove x2 y2 r2) s1 Hrun1)
    as (s2 & Hd2 & _).
  pose proof (dispatch_cases _ s1 s2 Hrun1 Hd2) as Hc2. cbn beta iota in Hc2.
  destruct (dispatch_running (MouseMove x2 y2 r2) s Hrun)
    as (s2' & Hd2' & _).
  pose proof (dispatch_cases _ s s2' Hrun Hd2') as Hc2'.
  cbn beta iota in Hc2'.
  assert (s2 = s2') as <-.
  { rewrite Hc2, Hc2', Hc1.
    cbn [set_heap mousePosition heap]. rewrite store_store.
    apply Sketch_ext; reflexivity. }
  cbn [run]. rewrite Hd1. cbn [mbind option_bind]. by rewrite Hd2, Hd2'.
Qed.

(** X4. The constructor allocates 18 objects (the pointer, the 15 slots,
    the array, the resolution); no event allocates another one, replaces a
    slot of the array or rebinds [pointerTrail]: every frame rewrites the
    same 15 vectors, which the [uPointerTrail] uniform keeps reading. *)
Theorem no_allocation_after_construction (dev : Device.t num)
    (es : list (Event num)) :
  exists s0 s,
    constructor dev = Some s0 /\ run es s0 = Some s /\
    next (heap s0) = 18%nat /\ next (heap s) = 18%nat /\
    dom (cells (heap s)) = dom (cells (heap s0)) /\
    pointerTrail s = pointerTrail s0 /\
    getArray (pointerTrail s) (heap s) =
      getArray (pointerTrail s0) (heap s0) /\
    Uniforms.uPointerTrail <$> planeMesh s = Some (pointerTrail s).
Proof.
  destruct (constructor_spec dev) as (s0 & Hc & Hrun0 & _).
  destruct (constructor_facts dev) as (s0' & Hc' & Hn0 & Hu0 & _).
  assert (s0' = s0) by congruence. subst s0'.
  destruct (run_shape es s0 Hrun0)
    as (s & Hr & _ & Hn & Hdom & Harr & Ha & _ & Hu & _).
  exists s0, s. split; [exact Hc|]. split; [exact Hr|].
  split; [exact Hn0|]. split; [by rewrite Hn|]. split; [exact Hdom|].
  split; [exact Ha|]. split; [by rewrite Ha, Harr|]. by rewrite Hu, Ha.
Qed.

(** X5. However the events fall, the loop neither stops nor multiplies:
    after the constructor and any events exactly one animation frame is
    requested, the renderer has been called once by the constructor and once
    per frame event, and the two listeners are installed once each. *)
Theorem render_loop_invariant (dev : Device.t num) (es : list (Event num)) :
  exists s0 s,
    constructor dev = Some s0 /\ run es s0 = Some s /\
    frames_requested s = 1%nat /\
    length (render_calls (trace s)) = (1 + count_frames es)%nat /\
    listeners s = [resize_event; mousemove_event].
Proof.
  destruct (constructor_spec dev) as (s0 & Hc & Hrun0 & _).
  destruct (constructor_facts dev) as (s0' & Hc' & _ & _ & Hc0 & Hl0 & _).
  assert (s0' = s0) by congruence. subst s0'.
  destruct (run_render_calls es s0 Hrun0) as (s & Hr & Hrun & Hcount & Hl).
  exists s0, s. split; [exact Hc|]. split; [exact Hr|].
  split; [by destruct Hrun as (_ & _ & Hfr & _)|].
  split; [by rewrite Hcount, Hc0|]. by rewrite Hl.
Qed.

(** X6. [updatePointerTrail] throws when the trail array has fewer slots
    than the loop bound [trailLength] (or no slot at all): the element read
    at the top index is [undefined]. *)
Theorem updatePointerTrail_short_array s :
  (length (default [] (getArray (pointerTrail s) (heap s))) <
     trailLength s `max` 1)%nat ->
  updatePointerTrail s = None.
Proof.
  intros Hlen. unfold updatePointerTrail.
  destruct (trailLength s - 1)%nat as [|j] eqn:Hj.
  - cbn [shift_from mbind option_bind]. rewrite index_default.
    rewrite lookup_ge_None_2 by lia. reflexivity.
  - cbn [shift_from]. rewrite (index_default _ (S j)).
    rewrite lookup_ge_None_2 by lia. reflexivity.
Qed.

(** X7. [render] throws on a sketch whose plane mesh does not exist yet:
    [init] has to call [addGeometry] before the first [render]. *)
Theorem render_needs_geometry s :
  planeMesh s = None -> render s = None.
Proof.
  intros Hu. destruct (render s) as [s'|] eqn:Hr; [|reflexivity].
  destruct (render_inv s s' Hr) as (_ & u & _ & _ & _ & Hu' & _). congruence.
Qed.


(** X9. After the constructor and any events, the camera's aspect is the
    width over the height of the last resize (of the device, if there was
    none) and the renderer has that size; the device's pixel ratio is the
    one read when the module was loaded. *)
Theorem camera_follows_last_resize (dev : Device.t num)
    (es : list (Event num)) :
  exists s0 s,
    constructor dev = Some s0 /\ run es s0 = Some s /\
    (Device.width (device s), Device.height (device s)) =
      last_size es (Device.width dev, Device.height dev) /\
    camera_aspect s =
      (fst (last_size es (Device.width dev, Device.height dev)) /
       snd (last_size es (Device.width dev, Device.height dev)))%num /\
    renderer_size s = last_size es (Device.width dev, Device.height dev) /\
    Device.pixelRatio (device s) = Device.pixelRatio dev.
Proof.
  destruct (constructor_spec dev) as (s0 & Hc & Hrun0 & _ & _ & _ & _ & _ & Hdev).
  destruct (constructor_facts dev) as (s0' & Hc' & _ & _ & _ & _ & Hsync0).
  assert (s0' = s0) by congruence. subst s0'.
  destruct (run_device es s0 Hrun0 Hsync0)
    as (s & Hr & _ & [Hcam Hren] & Hwh & Hpr).
  rewrite Hdev in Hwh, Hpr.
  exists s0, s. split; [exact Hc|]. split; [exact Hr|].
  split; [exact Hwh|]. rewrite <- Hwh. cbn [fst snd].
  split; [exact Hcam|]. split; [exact Hren|]. exact Hpr.
Qed.

(** X12. Between events as well as right after a tick, the plane's [time]
    uniform holds the sketch's [time], and its [uPointerTrail] uniform reads
    as the trail buffer: a [mousemove] or a resize between two frames does
    not put the uniforms out of step. *)
Theorem uniforms_never_out_of_step (dev : Device.t num)
    (es : list (Event num)) :
  exists s0 s u,
    constructor dev = Some s0 /\ run es s0 = Some s /\
    planeMesh s = Some u /\
    Uniforms.time u = time s /\
    readArray (Uniforms.uPointerTrail u) (heap s) = trail_values s.
Proof.
  destruct (constructor_spec dev) as (s0 & Hc & Hrun0 & _).
  destruct (constructor_time_uniform dev) as (s0' & Hc' & Ht0).
  assert (s0' = s0) by congruence. subst s0'.
  destruct (run_time_uniform es s0 Hrun0 Ht0) as (s & Hr & Hrun & Ht).
  destruct Hrun as (_ & Hfeed & _). unfold feed_linked in Hfeed.
  destruct (planeMesh s) as [u|] eqn:Hu; [|contradiction].
  destruct (getArray (pointerTrail s) (heap s)); [|contradiction].
  destruct Hfeed as (Hlink & _).
  exists s0, s, u. split; [exact Hc|]. split; [exact Hr|].
  split; [exact Hu|]. split.
  - cbn [fmap option_fmap option_map] in Ht. by injection Ht.
  - unfold trail_values. by rewrite Hlink.
Qed.

End Extras.

(** ** The further properties at concrete inputs *)

Lemma constructed_sketch_running : running constructed_sketch.
Proof.
  apply (@bool_decide_unpack _ (running_dec constructed_sketch)).
  vm_compute. reflexivity.
Defined.

Lemma sample_sketch_running : running sample_sketch.
Proof.
  apply (@bool_decide_unpack _ (running_dec sample_sketch)).
  vm_compute. reflexivity.
Defined.

(** The sample events on the constructed sketch. *)
Lemma trail_is_frame_history_witness :
  running constructed_sketch /\
  pointer_value constructed_sketch = Some origin /\
  trail_values constructed_sketch = Some (replicate 15 origin) /\
  exists s',
    run sample_events constructed_sketch = Some s' /\
    pointer_value s' = Some (pointer_after sample_events origin) /\
    trail_values s' =
      Some (take (trailLength constructed_sketch)
              (frame_samples sample_events origin ++ replicate 15 origin)).
Proof.
  assert (Hp : pointer_value constructed_sketch = Some origin)
    by (vm_compute; reflexivity).
  assert (Ht : trail_values constructed_sketch = Some (replicate 15 origin))
    by (vm_compute; reflexivity).
  split; [exact constructed_sketch_running|]. split; [exact Hp|].
  split; [exact Ht|].
  exact (trail_is_frame_history constructed_sketch sample_events origin
           (replicate 15 origin) constructed_sketch_running Hp Ht).
Defined.

(** Fifteen idle frames after the pointer went to the bottom-right
    corner. *)
Lemma trail_settles_on_pointer_witness :
  running sample_sketch /\
  pointer_value sample_sketch = Some sample_pointer /\
  no_mousemove idle_events = true /\
  (trailLength sample_sketch <= count_frames idle_events)%nat /\
  exists s',
    run idle_events sample_sketch = Some s' /\
    pointer_value s' = Some sample_pointer /\
    trail_values s' = Some (replicate (trailLength sample_sketch) sample_pointer).
Proof.
  assert (Hp : pointer_value sample_sketch = Some sample_pointer)
    by (vm_compute; reflexivity).
  assert (Hes : no_mousemove idle_events = true) by (vm_compute; reflexivity).
  assert (Hk : (trailLength sample_sketch <= count_frames idle_events)%nat)
    by (vm_compute; lia).
  split; [exact sample_sketch_running|]. split; [exact Hp|].
  split; [exact Hes|]. split; [exact Hk|].
  exact (trail_settles_on_pointer sample_sketch idle_events sample_pointer
           sample_sketch_running Hp Hes Hk).
Defined.

Lemma mousemove_overwrites_witness :
  running constructed_sketch /\
  run [MouseMove 410%float 320%float sample_rect;
       MouseMove 10%float 20%float sample_rect; AnimationFrame 0%float]
    constructed_sketch =
  run [MouseMove 10%float 20%float sample_rect; AnimationFrame 0%float]
    constructed_sketch.
Proof.
  split; [exact constructed_sketch_running|].
  exact (mousemove_overwrites constructed_sketch 410%float 320%float
           10%float 20%float sample_rect sample_rect
           [AnimationFrame 0%float] constructed_sketch_running).
Defined.

(** Sixteen for the bound, fifteen slots. *)
Lemma updatePointerTrail_short_array_witness :
  (length (default [] (getArray (pointerTrail short_trail_sketch)
                         (heap short_trail_sketch))) <
     trailLength short_trail_sketch `max` 1)%nat /\
  updatePointerTrail short_trail_sketch = None.
Proof.
  assert (Hlen : (length (default [] (getArray (pointerTrail short_trail_sketch)
                                        (heap short_trail_sketch))) <
                    trailLength short_trail_sketch `max` 1)%nat)
    by (vm_compute; lia).
  split; [exact Hlen|].
  exact (updatePointerTrail_short_array short_trail_sketch Hlen).
Defined.

(** The sketch before [addGeometry]. *)
Lemma render_needs_geometry_witness :
  planeMesh (initStats (constructor_fields sample_device)) = None /\
  render (initStats (constructor_fields sample_device)) = None.
Proof.
  split; [reflexivity|].
  exact (render_needs_geometry (initStats (constructor_fields sample_device))
           eq_refl).
Defined.
